(** * rogertalk/push: the delivery-reliability engine of [main.go]

    A shallow embedding of the push relay: the error taxonomy of
    [PushError], the transport registry [ClientMap], one delivery attempt
    [Push], the retry loop [push], the transactional device bookkeeping
    [updateDeviceStats] and the connection health monitor [pinger].

    Stateful code is written in a state monad over an explicit [World]
    that also carries what the process cannot control: the answers of the
    gateway, the faults of the datastore and the credentials on disk.
    Every call that leaves the process is recorded, in order, in the
    world's [trace]. *)

From Stdlib Require Import ZArith Lia List Bool Strings.Byte.
From stdpp Require Import base gmap strings list pretty.

Import ListNotations.
Open Scope string_scope.
Open Scope list_scope.
Open Scope Z_scope.

(** ** Machine integers

    Go's [int] is 64 bits wide on the platform of the Dockerfile
    (golang:1.10 on amd64); arithmetic wraps around silently. *)

Definition int_bits : Z := 64.
Definition MaxInt : Z := 2 ^ (int_bits - 1) - 1.
Definition MinInt : Z := - 2 ^ (int_bits - 1).

Definition wrap (z : Z) : Z :=
  (z - MinInt) mod 2 ^ int_bits + MinInt.

Definition is_int (z : Z) : Prop := MinInt <= z <= MaxInt.

(** ** Data model (main.go, lines 22-49) *)

Abbreviation Bytes := (list Byte.byte).

(** Instants and durations are counted in nanoseconds, as [time.Duration]
    does. *)
Definition Time : Type := Z.
Definition Duration : Type := Z.
Definition Second : Duration := 1000000000.
Definition Minute : Duration := 60 * Second.
Definition Hour : Duration := 60 * Minute.

Record Device := mkDevice {
  ApiVersion : Z;
  App : string;
  Created : Time;
  DeviceId : string;
  DeviceInfo : string;
  Environment : string;
  Failures : Z;
  LastSuccess : Time;
  Platform : string;
  Token : string;
  TotalFailures : Z;
  TotalSuccesses : Z;
  Updated : Time
}.

Record Payload := mkPayload {
  pAccountID : Z;
  pApp : string;
  pData : Bytes;
  pDeviceToken : string;
  pEnvironment : string
}.

Record PushError := mkPushError {
  Body : Bytes;
  StatusCode : Z
}.

(** ** Error classifier (main.go, lines 55-61) *)

Definition Permanent (pe : PushError) : bool :=
  (StatusCode pe =? 400) || (StatusCode pe =? 410).

Definition Retryable (pe : PushError) : bool :=
  (StatusCode pe =? 429) || (StatusCode pe =? 500) || (StatusCode pe =? 503).

Definition StatusOK : Z := 200.

(** The four verdicts of the taxonomy.  The source has no single
    classifying function: success is the test of [Push] on the response
    status, the next two are the methods above, and the last is what is
    left. *)
Inductive Verdict := VSuccess | VPermanent | VRetryable | VTerminal.

Definition has_verdict (status : Z) (v : Verdict) : bool :=
  let pe := {| Body := []; StatusCode := status |} in
  match v with
  | VSuccess => status =? StatusOK
  | VPermanent => Permanent pe
  | VRetryable => Retryable pe
  | VTerminal => negb ((status =? StatusOK) || Permanent pe || Retryable pe)
  end.

(** ** Constants (main.go, lines 81-89) *)

Definition AppleHost : string := "https://api.push.apple.com".
Definition AppleHostDev : string := "https://api.development.push.apple.com".
Definition MaxRetries : Z := 3.
Definition PingFrequency : Duration := Second.
Definition PingThreshold : Duration := Minute.

(** ** Values exchanged with the outside *)

(** The Go [error] values that [Push] can return.  A [PushError] is the
    only one that the type assertion of [push] recognises. *)
Inductive error :=
| ErrPush (pe : PushError)
| ErrInvalidApp (app : string)
| ErrNewRequest (url : string)
| ErrTransport (detail : string)
| ErrReadBody (detail : string).

Inductive StoreError :=
| ErrNoSuchEntity
| ErrStore (detail : string).

Record Client := mkClient {
  Timeout : Duration;
  Certificate : string
}.

Record Request := mkRequest {
  Method : string;
  URL : string;
  Header : list (string * string);
  ReqBody : Bytes
}.

(** A response of the gateway: its status and its body, [inr] when reading
    the body fails half way. *)
Record Response := mkResponse {
  RespStatus : Z;
  RespBody : Bytes + string
}.

(** What [client.Do] comes back with. *)
Inductive RoundTrip :=
| NoResponse (detail : string)
| Responded (resp : Response).

(** A device record is stored under its token, below its account. *)
Abbreviation Key := (Z * string)%type.

Inductive LogLine :=
| LogUnrecognizedApp (app : string)
| LogPermanentFailure (account : Z) (e : PushError)
| LogFailedToDelete (account : Z) (e : StoreError)
| LogDroppingNotification (account : Z) (e : PushError)
| LogPayload (account : Z) (data : Bytes)
| LogFailedToUpdate (account : Z) (e : StoreError)
| LogFailedToPush (account attempt retries : Z) (e : error)
| LogExceededMaxRetries (account : Z)
| LogFailedToCreateClient (app : string).

(** The calls that leave the process, in the order they are made. *)
Inductive Event :=
| EvLog (l : LogLine)
| EvLookup (app : string)
| EvDo (c : Client) (req : Request)
| EvReadAll
| EvClose
| EvDelete (k : Key)
| EvUpdate (k : Key) (success : bool)
| EvSleep (d : Duration).

(** ** The world

    [clients], [store] and [timestamp] are the package variables of
    main.go (lines 74-79).  The rest is the outside: [clock] is what
    [time.Now] reads, [credentials] the key pairs under secrets/ by
    application, [gateway] the answer to the n-th request sent,
    [store_fault] whether the n-th datastore call fails on its own. *)
Record World := mkWorld {
  clients : gmap string Client;
  store : gmap Key Device;
  timestamp : Time;
  clock : Time;
  credentials : gmap string string;
  gateway : nat -> RoundTrip;
  sent : nat;
  store_fault : nat -> option string;
  store_calls : nat;
  trace : list Event
}.

Definition with_clients (f : gmap string Client -> gmap string Client) (w : World) : World :=
  mkWorld (f (clients w)) (store w) (timestamp w) (clock w) (credentials w)
          (gateway w) (sent w) (store_fault w) (store_calls w) (trace w).

Definition with_store (f : gmap Key Device -> gmap Key Device) (w : World) : World :=
  mkWorld (clients w) (f (store w)) (timestamp w) (clock w) (credentials w)
          (gateway w) (sent w) (store_fault w) (store_calls w) (trace w).

Definition with_timestamp (t : Time) (w : World) : World :=
  mkWorld (clients w) (store w) t (clock w) (credentials w)
          (gateway w) (sent w) (store_fault w) (store_calls w) (trace w).

Definition with_clock (t : Time) (w : World) : World :=
  mkWorld (clients w) (store w) (timestamp w) t (credentials w)
          (gateway w) (sent w) (store_fault w) (store_calls w) (trace w).

Definition with_sent (n : nat) (w : World) : World :=
  mkWorld (clients w) (store w) (timestamp w) (clock w) (credentials w)
          (gateway w) n (store_fault w) (store_calls w) (trace w).

Definition with_store_calls (n : nat) (w : World) : World :=
  mkWorld (clients w) (store w) (timestamp w) (clock w) (credentials w)
          (gateway w) (sent w) (store_fault w) n (trace w).

Definition record (e : Event) (w : World) : World :=
  mkWorld (clients w) (store w) (timestamp w) (clock w) (credentials w)
          (gateway w) (sent w) (store_fault w) (store_calls w) (trace w ++ [e]).

(** ** The monad: state, with the two ways a Go program stops early *)

Inductive Result (A : Type) :=
| Returned (a : A) (w : World)
| Panicked (msg : string) (w : World)
| Exited (w : World).

Arguments Returned {A} a w.
Arguments Panicked {A} msg w.
Arguments Exited {A} w.

Definition M (A : Type) : Type := World -> Result A.

#[global] Instance M_ret : MRet M := fun A a w => Returned a w.

#[global] Instance M_bind : MBind M := fun A B f m w =>
  match m w with
  | Returned a w' => f a w'
  | Panicked msg w' => Panicked msg w'
  | Exited w' => Exited w'
  end.

Definition gets {A} (f : World -> A) : M A := fun w => Returned (f w) w.
Definition modify (f : World -> World) : M unit := fun w => Returned tt (f w).
Definition emit (e : Event) : M unit := modify (record e).
Definition panic {A} (msg : string) : M A := fun w => Panicked msg w.

Definition log_Printf (l : LogLine) : M unit := emit (EvLog l).

(** [log.Fatalf] prints and exits the process. *)
Definition log_Fatalf {A} (l : LogLine) : M A := fun w => Exited (record (EvLog l) w).

Definition time_Now : M Time := gets clock.

Definition time_Sleep (d : Duration) : M unit :=
  emit (EvSleep d);; modify (fun w => with_clock (clock w + d) w).

(** Reading the registry, [clients[app]]. *)
Definition clients_get (app : string) : M (option Client) :=
  emit (EvLookup app);; gets (fun w => clients w !! app).

(** [client.Do(req)]: the request goes out and the gateway's next answer
    comes back. *)
Definition client_Do (c : Client) (req : Request) : M RoundTrip :=
  emit (EvDo c req);;
  r ← gets (fun w => gateway w (sent w));
  modify (fun w => with_sent (S (sent w)) w);;
  mret r.

Definition ioutil_ReadAll (resp : Response) : M (Bytes + string) :=
  emit EvReadAll;; mret (RespBody resp).

(** One call to the datastore: it is counted, and fails when the outside
    says so. *)
Definition store_call : M (option string) :=
  f ← gets (fun w => store_fault w (store_calls w));
  modify (fun w => with_store_calls (S (store_calls w)) w);;
  mret f.

Definition store_Delete (k : Key) : M (option StoreError) :=
  emit (EvDelete k);;
  f ← store_call;
  match f with
  | Some detail => mret (Some (ErrStore detail))
  | None => modify (with_store (delete k));; mret None
  end.

(** ** Device bookkeeping (main.go, lines 237-257) *)

(** The body of the transaction between [tx.Get] and [tx.Put]. *)
Definition bump (now : Time) (success : bool) (device : Device) : Device :=
  if success then
    mkDevice (ApiVersion device) (App device) (Created device) (DeviceId device)
             (DeviceInfo device) (Environment device)
             0
             now
             (Platform device) (Token device)
             (TotalFailures device)
             (wrap (TotalSuccesses device + 1))
             now
  else
    mkDevice (ApiVersion device) (App device) (Created device) (DeviceId device)
             (DeviceInfo device) (Environment device)
             (wrap (Failures device + 1))
             (LastSuccess device)
             (Platform device) (Token device)
             (wrap (TotalFailures device + 1))
             (TotalSuccesses device)
             now.

Definition updateDeviceStats (key : Key) (success : bool) : M (option StoreError) :=
  emit (EvUpdate key success);;
  f ← store_call;
  match f with
  | Some detail => mret (Some (ErrStore detail))
  | None =>
      d ← gets (fun w => store w !! key);
      match d with
      | None => mret (Some ErrNoSuchEntity)
      | Some device =>
          now ← time_Now;
          modify (with_store (<[key := bump now success device]>));;
          mret None
      end
  end.

(** ** Transport registry (main.go, lines 63-72 and 119-142) *)

(** [NewClient] loads the key pair of the application and stops the
    process when there is none. *)
Definition NewClient (app : string) : M Client :=
  cert ← gets (fun w => credentials w !! app);
  match cert with
  | None => log_Fatalf (LogFailedToCreateClient app)
  | Some cert => mret {| Timeout := 3 * Second; Certificate := cert |}
  end.

Definition overwrite_msg : string := "tried to overwrite existing client".

Definition Create (app : string) : M Client :=
  old ← clients_get app;
  match old with
  | Some _ => panic overwrite_msg
  | None =>
      client ← NewClient app;
      modify (with_clients (<[app := client]>));;
      mret client
  end.

(** ** One delivery attempt and the retry loop *)

Section Dispatcher.

(** [http.NewRequest] fails exactly when [url.Parse] refuses the address;
    that parser is the library's, and is taken as given. *)
Variable url_Parse : string -> bool.

Definition http_NewRequest (method url : string) (body : Bytes) : option Request :=
  if url_Parse url then Some (mkRequest method url [] body) else None.

(** [req.Header.Set]: the value replaces what the name had.  Names are kept
    as written; Go stores them in canonical case. *)
Definition Header_Set (name value : string) (req : Request) : Request :=
  mkRequest (Method req) (URL req)
            (filter (fun h => h.1 ≠ name) (Header req) ++ [(name, value)])
            (ReqBody req).

(** [time.Now().Add(168 * time.Hour).Unix()] *)
Definition expiration_of (now : Time) : Z := (now + 168 * Hour) / Second.

(** The address of the request (main.go, lines 150-155). *)
Definition endpoint (env deviceToken : string) : string :=
  if String.eqb env "development"
  then AppleHostDev +:+ "/3/device/" +:+ deviceToken
  else AppleHost +:+ "/3/device/" +:+ deviceToken.

(** The three headers of the request (main.go, lines 160-163). *)
Definition with_headers (app : string) (now : Time) (req : Request) : Request :=
  let req := Header_Set "apns-expiration" (pretty (expiration_of now)) req in
  let req := Header_Set "apns-topic" app req in
  Header_Set "Content-Type" "application/json" req.

(** main.go, lines 144-179.  The deferred [resp.Body.Close()] runs on each
    way out once there is a response. *)
Definition Push (app deviceToken env : string) (data : Bytes) : M (option error) :=
  c ← clients_get app;
  match c with
  | None => mret (Some (ErrInvalidApp app))
  | Some client =>
      let url := endpoint env deviceToken in
      match http_NewRequest "POST" url data with
      | None => mret (Some (ErrNewRequest url))
      | Some req =>
          now ← time_Now;
          let req := with_headers app now req in
          r ← client_Do client req;
          match r with
          | NoResponse detail => mret (Some (ErrTransport detail))
          | Responded resp =>
              now ← time_Now;
              modify (with_timestamp now);;
              if RespStatus resp =? StatusOK then
                emit EvClose;; mret None
              else
                body ← ioutil_ReadAll resp;
                match body with
                | inr detail => emit EvClose;; mret (Some (ErrReadBody detail))
                | inl body =>
                    emit EvClose;;
                    mret (Some (ErrPush {| Body := body; StatusCode := RespStatus resp |}))
                end
          end
      end
  end.

(** The type assertion [err.(PushError)]: the value and whether it held. *)
Definition as_PushError (err : option error) : PushError * bool :=
  match err with
  | Some (ErrPush pe) => (pe, true)
  | _ => ({| Body := []; StatusCode := 0 |}, false)
  end.

(** [time.Duration(math.Exp2(float64(n)))]: for 0 <= n <= 62 the float is
    an exact power of two, and below zero the conversion truncates to 0,
    which is what [Z.pow] gives. The loop reaches n = 0 and n = 1 only. *)
Definition Exp2 (n : Z) : Duration := 2 ^ n.

Definition when_err (e : option StoreError) (l : StoreError -> LogLine) : M unit :=
  match e with
  | Some e => log_Printf (l e)
  | None => mret tt
  end.

(** The [for] loop of [push] (main.go, lines 204-234); [None] is running
    out of [fuel], [Some tt] is the function returning. *)
Fixpoint push_loop (fuel : nat) (payload : Payload) (deviceKey : Key) (attempt : Z)
  : M (option unit) :=
  match fuel with
  | O => mret None
  | S fuel =>
      let account := pAccountID payload in
      err ← Push (pApp payload) (pDeviceToken payload) (pEnvironment payload) (pData payload);
      let '(pe, ok) := as_PushError err in
      if ok && Permanent pe then
        (if Permanent pe then
           log_Printf (LogPermanentFailure account pe);;
           derr ← store_Delete deviceKey;
           when_err derr (LogFailedToDelete account)
         else if negb (Retryable pe) then
           log_Printf (LogDroppingNotification account pe)
         else mret tt);;
        log_Printf (LogPayload account (pData payload));;
        mret (Some tt)
      else
        updateErr ← updateDeviceStats deviceKey (bool_decide (err = None));
        when_err updateErr (LogFailedToUpdate account);;
        match err with
        | None => mret (Some tt)
        | Some e =>
            log_Printf (LogFailedToPush account attempt MaxRetries e);;
            if attempt >=? MaxRetries then
              log_Printf (LogExceededMaxRetries account);;
              log_Printf (LogPayload account (pData payload));;
              mret (Some tt)
            else
              time_Sleep (wrap (Exp2 (attempt - 1) * Second));;
              push_loop fuel payload deviceKey (wrap (attempt + 1))
        end
  end.

(** main.go, lines 195-235. *)
Definition push (payload : Payload) : M (option unit) :=
  let app := pApp payload in
  if String.eqb app "" then
    log_Printf (LogUnrecognizedApp app);; mret (Some tt)
  else
    let deviceKey := (pAccountID payload, pDeviceToken payload) in
    push_loop (Z.to_nat MaxRetries) payload deviceKey 1.

End Dispatcher.

(** ** Observing a run *)

(** What the dispatcher does to the outside, without the log lines and
    without the handling of response bodies. *)
Inductive Action :=
| Lookup (app : string)
| Send
| Delete (k : Key)
| Update (k : Key) (success : bool)
| Sleep (d : Duration).

Definition action_of (e : Event) : option Action :=
  match e with
  | EvLookup app => Some (Lookup app)
  | EvDo _ _ => Some Send
  | EvDelete k => Some (Delete k)
  | EvUpdate k s => Some (Update k s)
  | EvSleep d => Some (Sleep d)
  | EvLog _ | EvReadAll | EvClose => None
  end.

Definition actions (t : list Event) : list Action := omap action_of t.

Definition is_read (e : Event) : bool :=
  match e with EvReadAll => true | _ => false end.

Definition final {A} (r : Result A) : World :=
  match r with
  | Returned _ w | Panicked _ w | Exited w => w
  end.

(** An answer of the gateway after which the attempt has failed without a
    permanent verdict: no answer at all, or one of the statuses that
    [Retryable] accepts. *)
Definition transient (r : RoundTrip) : Prop :=
  match r with
  | NoResponse _ => True
  | Responded resp =>
      RespStatus resp = 429 \/ RespStatus resp = 500 \/ RespStatus resp = 503
  end.

(** The outcome of [Push] once the gateway has answered, and what the
    attempt does with the body of the answer. *)
Definition outcome (resp : Response) : option error :=
  if RespStatus resp =? StatusOK then None
  else match RespBody resp with
       | inl body => Some (ErrPush {| Body := body; StatusCode := RespStatus resp |})
       | inr detail => Some (ErrReadBody detail)
       end.

Definition closing (resp : Response) : list Event :=
  if RespStatus resp =? StatusOK then [EvClose] else [EvReadAll; EvClose].

(** [follows w w' acts n]: from [w] the process reached [w'] by doing [acts]
    and sending [n] requests, the registry and the gateway being what they
    were. *)
Definition follows (w w' : World) (acts : list Action) (n : nat) : Prop :=
  actions (trace w') = actions (trace w) ++ acts /\
  clients w' = clients w /\
  gateway w' = gateway w /\
  sent w' = (n + sent w)%nat.

(** An error after which [push] takes the bookkeeping path. *)
Definition not_permanent (e : error) : Prop :=
  match e with
  | ErrPush pe => Permanent pe = false
  | _ => True
  end.

Definition delay_of (a : Action) : option Duration :=
  match a with
  | Sleep d => Some d
  | _ => None
  end.

(** The pauses of a run, in order. *)
Definition delays (acts : list Action) : list Duration := omap delay_of acts.

(** ** Sample worlds *)

Definition ReactionCam : string := "cam.reaction.ReactionCam".

Definition sample_client : Client :=
  {| Timeout := 3 * Second; Certificate := "pem" |}.

Definition sample_device : Device :=
  mkDevice 1 ReactionCam 0 "id" "" "production" 0 0 "ios" "token" 0 0 0.

Definition worn_out : Device :=
  mkDevice 1 ReactionCam 0 "id" "" "production" 0 0 "ios" "token" MaxInt 0 0.

Definition answer (status : Z) (body : Bytes) : RoundTrip :=
  Responded {| RespStatus := status; RespBody := inl body |}.

(** One registered application, one device record, a last answer seen at
    instant 5, the clock at 100, and a gateway with a fixed answer. *)
Definition sample_world (g : nat -> RoundTrip) : World :=
  mkWorld {[ ReactionCam := sample_client ]}
          {[ (7, "token") := sample_device ]}
          5 100 ∅ g 0 (fun _ => None) 0 [].

Definition sample_payload (app : string) : Payload :=
  mkPayload 7 app ["{"%byte; "}"%byte] "token" "production".

Definition any_url : string -> bool := fun _ => true.

(** An empty registry, an empty store, and the key pair of one application
    on disk: the process before [main] has registered anything. *)
Definition bare_world : World :=
  mkWorld ∅ ∅ 0 100 {[ ReactionCam := "pem" ]} (fun _ => answer 200 []) 0
          (fun _ => None) 0 [].

(** ** Connection health monitor (main.go, lines 181-192) *)

(** [time.Since(t)] is [time.Now().Sub(t)], and [Sub] stops at the ends of
    [Duration] instead of wrapping. *)
Definition saturate (z : Z) : Duration := Z.max MinInt (Z.min MaxInt z).

Definition time_Since (t : Time) : M Duration :=
  now ← time_Now; mret (saturate (now - t)).

(** The body of [for app := range clients], over the keys in the order the
    runtime hands them out. *)
Fixpoint refresh (apps : list string) : M unit :=
  match apps with
  | [] => mret tt
  | app :: apps =>
      client ← NewClient app;
      modify (with_clients (<[app := client]>));;
      refresh apps
  end.

Section Monitor.

(** Go leaves the order of a [range] over a map open; the monitor takes it
    as given. *)
Variable range_order : gmap string Client -> list string.

(** One turn of the endless loop of [pinger], run on its own. *)
Definition pinger_round : M unit :=
  stamp ← gets timestamp;
  since ← time_Since stamp;
  (if since >? PingThreshold then
     now ← time_Now;
     modify (with_timestamp now);;
     apps ← gets (fun w => range_order (clients w));
     refresh apps
   else mret tt);;
  time_Sleep PingFrequency.


End Monitor.

(** The transport that [NewClient] builds from a key pair. *)
Definition fresh_client (cert : string) : Client :=
  {| Timeout := 3 * Second; Certificate := cert |}.

(** The order in which stdpp lists the keys, one admissible order. *)
Definition listed_order (m : gmap string Client) : list string :=
  (map_to_list m).*1.

(** ** Counting what a run did *)

Definition is_send (a : Action) : bool :=
  match a with Send => true | _ => false end.

Definition is_update (a : Action) : bool :=
  match a with Update _ _ => true | _ => false end.

Definition is_delete (a : Action) : bool :=
  match a with Delete _ => true | _ => false end.

Definition is_lookup (a : Action) : bool :=
  match a with Lookup _ => true | _ => false end.

Definition tally (p : Action -> bool) (acts : list Action) : nat :=
  length (List.filter p acts).

(** The time spent asleep. *)
Definition pause_total (acts : list Action) : Duration :=
  fold_right Z.add 0 (delays acts).

(** [evolves w w' acts]: from [w] the process reached [w'] by doing [acts];
    the registry, the credentials and the outside are what they were, one
    answer of the gateway was used per request, and the clock moved by the
    pauses. *)
Record evolves (w w' : World) (acts : list Action) : Prop := mkEvolves {
  ev_actions : actions (trace w') = actions (trace w) ++ acts;
  ev_clients : clients w' = clients w;
  ev_credentials : credentials w' = credentials w;
  ev_gateway : gateway w' = gateway w;
  ev_faults : store_fault w' = store_fault w;
  ev_sent : sent w' = (sent w + tally is_send acts)%nat;
  ev_clock : clock w' = clock w + pause_total acts
}.

(** ** The dispatcher without the world

    What [Push] returns and does, and what a round of the loop of [push]
    does, read from the registry entry of the application, the verdict of
    the address parser and the answer of the gateway alone. *)

Definition attempt_view (app token env : string)
    (c : option Client) (parses : bool) (r : RoundTrip) : option error * list Action :=
  match c with
  | None => (Some (ErrInvalidApp app), [Lookup app])
  | Some _ =>
      if parses then
        (match r with
         | NoResponse detail => Some (ErrTransport detail)
         | Responded resp => outcome resp
         end, [Lookup app; Send])
      else (Some (ErrNewRequest (endpoint env token)), [Lookup app])
  end.

(** The actions of one round, and whether the loop goes round again. *)
Definition round_view (payload : Payload) (key : Key) (attempt : Z)
    (c : option Client) (parses : bool) (r : RoundTrip) : list Action * bool :=
  let '(err, acts) :=
    attempt_view (pApp payload) (pDeviceToken payload) (pEnvironment payload) c parses r in
  let '(pe, ok) := as_PushError err in
  if ok && Permanent pe then (acts ++ [Delete key], false)
  else
    match err with
    | None => (acts ++ [Update key true], false)
    | Some _ =>
        if attempt >=? MaxRetries then (acts ++ [Update key false], false)
        else (acts ++ [Update key false; Sleep (wrap (Exp2 (attempt - 1) * Second))], true)
    end.

Fixpoint schedule (fuel : nat) (payload : Payload) (key : Key) (attempt : Z)
    (c : option Client) (parses : bool) (g : nat -> RoundTrip) (n : nat) : list Action :=
  match fuel with
  | O => []
  | S fuel =>
      let '(acts, more) := round_view payload key attempt c parses (g n) in
      if more then
        acts ++ schedule fuel payload key (wrap (attempt + 1)) c parses g
                         (n + tally is_send acts)
      else acts
  end.

Definition plan (payload : Payload) (c : option Client) (parses : bool)
    (g : nat -> RoundTrip) (n : nat) : list Action :=
  if String.eqb (pApp payload) "" then []
  else schedule (Z.to_nat MaxRetries) payload
                (pAccountID payload, pDeviceToken payload) 1 c parses g n.

(** An answer after which the loop of [push] takes the bookkeeping path
    with a failure: anything but a 200 and but a 400 or 410 whose body
    could be read. *)
Definition soft (r : RoundTrip) : Prop :=
  match r with
  | NoResponse _ => True
  | Responded resp =>
      RespStatus resp <> 200 /\
      (RespStatus resp = 400 \/ RespStatus resp = 410 ->
       exists detail, RespBody resp = inr detail)
  end.

(** ** Bookkeeping calls in a row *)

Fixpoint update_all (key : Key) (flags : list bool) : M unit :=
  match flags with
  | [] => mret tt
  | success :: flags => updateDeviceStats key success;; update_all key flags
  end.

(** The failures at the head of a list of flags; on a reversed history,
    the failures since the last success. *)
Fixpoint leading_failures (flags : list bool) : nat :=
  match flags with
  | false :: flags => S (leading_failures flags)
  | _ => O
  end.

Definition streak (history : list bool) : nat := leading_failures (rev history).

(** What the store holds after a bookkeeping call and after a delete made
    in world [w]. *)
Definition updated_store (w : World) (key : Key) (success : bool) : gmap Key Device :=
  match store_fault w (store_calls w), store w !! key with
  | None, Some d => <[key := bump (clock w) success d]> (store w)
  | _, _ => store w
  end.

Definition deleted_store (w : World) (key : Key) : gmap Key Device :=
  match store_fault w (store_calls w) with
  | None => delete key (store w)
  | Some _ => store w
  end.

(** * Properties *)

(** ** Machine integers *)

Lemma int_bounds :
  MinInt = -9223372036854775808 /\ MaxInt = 9223372036854775807 /\
  2 ^ int_bits = 18446744073709551616.
Proof. repeat split; vm_compute; reflexivity. Qed.

Lemma wrap_small z : is_int z -> wrap z = z.
Proof.
  unfold is_int, wrap. destruct int_bounds as (-> & -> & ->).
  intros H. rewrite Z.mod_small; lia.
Qed.

Lemma wrap_succ z : MinInt <= z < MaxInt -> wrap (z + 1) = z + 1.
Proof. intros H. apply wrap_small. unfold is_int. lia. Qed.

Lemma wrap_MaxInt : wrap (MaxInt + 1) = MinInt.
Proof. vm_compute. reflexivity. Qed.

(** ** The error classifier *)

Lemma Permanent_iff pe :
  Permanent pe = true <-> StatusCode pe = 400 \/ StatusCode pe = 410.
Proof. unfold Permanent. rewrite orb_true_iff, !Z.eqb_eq. tauto. Qed.

Lemma Retryable_iff pe :
  Retryable pe = true <->
  StatusCode pe = 429 \/ StatusCode pe = 500 \/ StatusCode pe = 503.
Proof. unfold Retryable. rewrite !orb_true_iff, !Z.eqb_eq. tauto. Qed.

(** C10: no status code is both Permanent and Retryable, and every status
    code falls under exactly one of the four verdicts success, permanent,
    retryable and terminal (neither of the three). *)
Theorem C10_verdicts_partition (pe : PushError) :
  Permanent pe && Retryable pe = false /\
  exists! v : Verdict, has_verdict (StatusCode pe) v = true.
Proof.
  split.
  - destruct (Permanent pe) eqn:HP; [|reflexivity].
    apply Permanent_iff in HP. cbn.
    apply not_true_is_false. rewrite Retryable_iff. lia.
  - set (s := StatusCode pe).
    assert (Hp : forall b, Permanent {| Body := b; StatusCode := s |} = true <-> s = 400 \/ s = 410)
      by (intros b; apply Permanent_iff).
    assert (Hr : forall b, Retryable {| Body := b; StatusCode := s |} = true <-> s = 429 \/ s = 500 \/ s = 503)
      by (intros b; apply Retryable_iff).
    assert (Hv : forall v, has_verdict s v = true <->
               match v with
               | VSuccess => s = 200
               | VPermanent => s = 400 \/ s = 410
               | VRetryable => s = 429 \/ s = 500 \/ s = 503
               | VTerminal => s <> 200 /\ s <> 400 /\ s <> 410 /\ s <> 429 /\ s <> 500 /\ s <> 503
               end).
    { intros [] ; unfold has_verdict; rewrite ?Hp, ?Hr, ?Z.eqb_eq; try tauto.
      rewrite negb_true_iff, !orb_false_iff, <- !not_true_iff_false, Hp, Hr, Z.eqb_eq.
      unfold StatusOK. lia. }
    destruct (decide (s = 200)) as [H2|H2];
      [exists VSuccess|destruct (decide (s = 400 \/ s = 410)) as [H4|H4];
        [exists VPermanent|destruct (decide (s = 429 \/ s = 500 \/ s = 503)) as [H5|H5];
          [exists VRetryable|exists VTerminal]]];
      (split; [apply Hv; lia | intros v' Hv'; apply Hv in Hv'; destruct v'; (reflexivity || lia)]).
Qed.

(** ** Running the monad *)

Ltac run :=
  unfold clients_get, client_Do, ioutil_ReadAll, store_Delete, store_call,
    time_Now, time_Sleep, log_Printf, log_Fatalf, when_err, emit, modify,
    gets, panic;
  unfold mbind, M_bind, mret, M_ret; cbn.

Lemma bind_Returned {A B} (m : M A) (f : A -> M B) w a w' :
  m w = Returned a w' -> (m ≫= f) w = f a w'.
Proof. intros H. unfold mbind, M_bind. rewrite H. reflexivity. Qed.

(** ** Device bookkeeping *)

(** C7, as stated, fails on the source: a failure recorded on a record whose
    lifetime failure counter holds the largest [int] wraps the counter
    around to the smallest one. *)
Lemma C7_lifetime_counter_wraps :
  let key := (7, "token") in
  let w := with_store (<[key := worn_out]>) (sample_world (fun _ => answer 200 [])) in
  let r := updateDeviceStats key false w in
  (exists w', r = Returned None w') /\
  (TotalFailures <$> store w !! key) = Some MaxInt /\
  (TotalFailures <$> store (final r) !! key) = Some MinInt /\
  MinInt < MaxInt.
Proof. vm_compute. eauto. Qed.

(** C7, amended: on a record whose three counters are below the largest
    [int], a bookkeeping update that reaches the store leaves the
    consecutive-failure counter at zero when it records a success, one
    higher when it records a failure, and lowers neither lifetime
    counter. *)
Theorem C7_counters_below_MaxInt
    (w : World) (key : Key) (success : bool) (d : Device)
    (Hd : store w !! key = Some d)
    (Hup : store_fault w (store_calls w) = None)
    (HF : MinInt <= Failures d < MaxInt)
    (HTF : MinInt <= TotalFailures d < MaxInt)
    (HTS : MinInt <= TotalSuccesses d < MaxInt) :
  exists w' d',
    updateDeviceStats key success w = Returned None w' /\
    store w' !! key = Some d' /\
    (success = true -> Failures d' = 0) /\
    (success = false -> Failures d' = Failures d + 1) /\
    TotalSuccesses d <= TotalSuccesses d' /\
    TotalFailures d <= TotalFailures d'.
Proof.
  exists (with_store (<[key := bump (clock w) success d]>)
            (with_store_calls (S (store_calls w)) (record (EvUpdate key success) w))).
  exists (bump (clock w) success d). split; [|split].
  - unfold updateDeviceStats. run. rewrite Hup. cbn. rewrite Hd. reflexivity.
  - cbn. apply lookup_insert_eq.
  - destruct success; cbn; rewrite ?wrap_succ by assumption;
      repeat split; intros; try discriminate; lia.
Qed.

Lemma C7_counters_below_MaxInt_witness :
  let w := mkWorld ∅ {[ (7, "token") := mkDevice 1 "a" 0 "id" "" "production" 2 0 "ios" "token" 5 9 0 ]}
                   0 100 ∅ (fun _ => NoResponse "down") 0 (fun _ => None) 0 [] in
  exists w' d',
    updateDeviceStats (7, "token") false w = Returned None w' /\
    store w' !! (7, "token") = Some d' /\
    (false = true -> Failures d' = 0) /\
    (false = false -> Failures d' = 2 + 1) /\
    9 <= TotalSuccesses d' /\
    5 <= TotalFailures d'.
Proof.
  intros w.
  apply (C7_counters_below_MaxInt w (7, "token") false
           (mkDevice 1 "a" 0 "id" "" "production" 2 0 "ios" "token" 5 9 0));
    try reflexivity; vm_compute; split; (reflexivity || (intros H; discriminate H)).
Defined.

(** ** The transport registry *)

(** C8: [Create] on an application that is already registered panics and
    the registry still holds the entry it held; [Push] for an application
    that is not registered returns the invalid-app error to its caller as
    an ordinary value, without a panic, and the registry is as it was. *)
Theorem C8_create_twice_panics_lookup_returns
    (url_Parse : string -> bool)
    (w1 w2 : World) (app1 app2 token env : string) (data : Bytes) (c : Client)
    (Hpresent : clients w1 !! app1 = Some c)
    (Habsent : clients w2 !! app2 = None) :
  (exists w1', Create app1 w1 = Panicked overwrite_msg w1' /\
               clients w1' = clients w1 /\ clients w1' !! app1 = Some c) /\
  (exists w2', Push url_Parse app2 token env data w2
                 = Returned (Some (ErrInvalidApp app2)) w2' /\
               clients w2' = clients w2).
Proof.
  split.
  - exists (record (EvLookup app1) w1). unfold Create. run.
    rewrite Hpresent. auto.
  - exists (record (EvLookup app2) w2). unfold Push. run.
    rewrite Habsent. auto.
Qed.

Lemma C8_create_twice_panics_lookup_returns_witness :
  let c := {| Timeout := 3 * Second; Certificate := "pem" |} in
  let w := mkWorld {[ "cam.reaction.ReactionCam" := c ]} ∅ 0 100 ∅
                   (fun _ => NoResponse "down") 0 (fun _ => None) 0 [] in
  (exists w1', Create "cam.reaction.ReactionCam" w = Panicked overwrite_msg w1' /\
               clients w1' = clients w /\
               clients w1' !! "cam.reaction.ReactionCam" = Some c) /\
  (exists w2', Push (fun _ => true) "other.app" "token" "production" [] w
                 = Returned (Some (ErrInvalidApp "other.app")) w2' /\
               clients w2' = clients w).
Proof.
  intros c w.
  apply (C8_create_twice_panics_lookup_returns (fun _ => true) w w
           "cam.reaction.ReactionCam" "other.app" "token" "production" [] c);
    reflexivity.
Defined.

(** ** One delivery attempt *)

Section PushFacts.

Variable url_Parse : string -> bool.

Lemma Push_unknown_app app token env data w :
  clients w !! app = None ->
  Push url_Parse app token env data w
  = Returned (Some (ErrInvalidApp app)) (record (EvLookup app) w).
Proof. intros H. unfold Push. run. rewrite H. reflexivity. Qed.

Lemma Push_bad_url app token env data w c :
  clients w !! app = Some c ->
  url_Parse (endpoint env token) = false ->
  Push url_Parse app token env data w
  = Returned (Some (ErrNewRequest (endpoint env token))) (record (EvLookup app) w).
Proof.
  intros Hc Hu. unfold Push, http_NewRequest. run. rewrite Hc, Hu. reflexivity.
Qed.

Lemma Push_answered app token env data w c resp :
  clients w !! app = Some c ->
  url_Parse (endpoint env token) = true ->
  gateway w (sent w) = Responded resp ->
  exists req w',
    Push url_Parse app token env data w = Returned (outcome resp) w' /\
    trace w' = trace w ++ [EvLookup app; EvDo c req] ++ closing resp /\
    timestamp w' = clock w /\
    clients w' = clients w /\ gateway w' = gateway w /\ sent w' = S (sent w).
Proof.
  intros Hc Hu Hg. unfold Push, http_NewRequest, outcome, closing. run.
  rewrite Hc, Hu. cbn. rewrite Hg.
  eexists. destruct (RespStatus resp =? StatusOK); cbn.
  - eexists. split; [reflexivity|]. cbn. rewrite <- !app_assoc. auto.
  - destruct (RespBody resp); cbn; eexists; (split; [reflexivity|]);
      cbn; rewrite <- !app_assoc; auto.
Qed.

Lemma Push_unanswered app token env data w c detail :
  clients w !! app = Some c ->
  url_Parse (endpoint env token) = true ->
  gateway w (sent w) = NoResponse detail ->
  exists req w',
    Push url_Parse app token env data w = Returned (Some (ErrTransport detail)) w' /\
    trace w' = trace w ++ [EvLookup app; EvDo c req] /\
    timestamp w' = timestamp w /\
    clients w' = clients w /\ gateway w' = gateway w /\ sent w' = S (sent w).
Proof.
  intros Hc Hu Hg. unfold Push, http_NewRequest. run.
  rewrite Hc, Hu. cbn. rewrite Hg.
  do 2 eexists. split; [reflexivity|]. cbn. rewrite <- !app_assoc. auto.
Qed.

End PushFacts.

(** C3, as stated, fails on the source: an answer with status 503 moves
    the timestamp from 5 to the current instant, 100. *)
Lemma C3_timestamp_moves_on_503 :
  let w := sample_world (fun _ => answer 503 []) in
  let w' := final (Push any_url ReactionCam "token" "production" [] w) in
  gateway w (sent w) = answer 503 [] /\
  timestamp w = 5 /\ timestamp w' = 100 /\ timestamp w' <> timestamp w.
Proof. vm_compute. repeat split; discriminate. Qed.

(** C3, amended: every delivery attempt that receives a response from the
    gateway sets the process-wide timestamp to the current instant,
    whatever the status of the response. *)
Theorem C3_timestamp_set_on_every_response
    (url_Parse : string -> bool)
    (app token env : string) (data : Bytes) (w : World) (c : Client) (resp : Response)
    (Hc : clients w !! app = Some c)
    (Hu : url_Parse (endpoint env token) = true)
    (Hg : gateway w (sent w) = Responded resp) :
  exists e w',
    Push url_Parse app token env data w = Returned e w' /\
    timestamp w' = clock w.
Proof.
  destruct (Push_answered url_Parse app token env data w c resp Hc Hu Hg)
    as (req & w' & HP & _ & Ht & _).
  eauto.
Qed.

Lemma C3_timestamp_set_on_every_response_witness :
  let w := sample_world (fun _ => answer 404 []) in
  exists e w',
    Push any_url ReactionCam "token" "production" [] w = Returned e w' /\
    timestamp w' = 100.
Proof.
  intros w.
  apply (C3_timestamp_set_on_every_response any_url ReactionCam "token" "production" []
           w sample_client {| RespStatus := 404; RespBody := inl [] |});
    reflexivity.
Defined.

(** C9, as stated, fails on the source: on an answer with status 200 the
    attempt returns without one read of the body. *)
Lemma C9_body_unread_on_200 :
  let w := sample_world (fun _ => answer 200 ["o"%byte; "k"%byte]) in
  let r := Push any_url ReactionCam "token" "production" [] w in
  gateway w (sent w) = answer 200 ["o"%byte; "k"%byte] /\
  (exists w', r = Returned None w') /\
  existsb is_read (trace (final r)) = false.
Proof. vm_compute. eauto. Qed.

(** C9, amended: for every response whose status is not 200 the attempt
    reads the whole body and then closes it before it returns; on status
    200 it closes the body without reading it. *)
Theorem C9_body_read_unless_200
    (url_Parse : string -> bool)
    (app token env : string) (data : Bytes) (w : World) (c : Client) (resp : Response)
    (Hc : clients w !! app = Some c)
    (Hu : url_Parse (endpoint env token) = true)
    (Hg : gateway w (sent w) = Responded resp) :
  exists e req w',
    Push url_Parse app token env data w = Returned e w' /\
    trace w' = trace w ++ [EvLookup app; EvDo c req] ++
               (if RespStatus resp =? 200 then [EvClose] else [EvReadAll; EvClose]).
Proof.
  destruct (Push_answered url_Parse app token env data w c resp Hc Hu Hg)
    as (req & w' & HP & Ht & _).
  eauto.
Qed.

Lemma C9_body_read_unless_200_witness :
  let w := sample_world (fun _ => answer 404 []) in
  exists e req w',
    Push any_url ReactionCam "token" "production" [] w = Returned e w' /\
    trace w' = [EvLookup ReactionCam; EvDo sample_client req; EvReadAll; EvClose].
Proof.
  intros w.
  apply (C9_body_read_unless_200 any_url ReactionCam "token" "production" []
           w sample_client {| RespStatus := 404; RespBody := inl [] |});
    reflexivity.
Defined.

(** ** The retry loop *)

Lemma follows_refl w : follows w w [] 0.
Proof. unfold follows. rewrite app_nil_r. auto. Qed.

Lemma follows_trans w1 w2 w3 a1 a2 n1 n2 :
  follows w1 w2 a1 n1 -> follows w2 w3 a2 n2 ->
  follows w1 w3 (a1 ++ a2) (n2 + n1).
Proof.
  intros (Ht1 & Hc1 & Hg1 & Hs1) (Ht2 & Hc2 & Hg2 & Hs2). unfold follows.
  rewrite Ht2, Ht1, Hc2, Hc1, Hg2, Hg1, Hs2, Hs1, app_assoc.
  repeat split; lia.
Qed.

Lemma follows_record e w : follows w (record e w) (actions [e]) 0.
Proof. unfold follows, actions. cbn [record trace clients gateway sent]. rewrite omap_app. auto. Qed.

Lemma follows_log l w : follows w (record (EvLog l) w) [] 0.
Proof. apply (follows_record (EvLog l)). Qed.

Lemma when_err_follows e l w :
  exists w', when_err e l w = Returned tt w' /\ follows w w' [] 0.
Proof.
  destruct e; run; eexists; (split; [reflexivity|]);
    [apply follows_log | apply follows_refl].
Qed.

Lemma updateDeviceStats_follows key success w :
  exists e w',
    updateDeviceStats key success w = Returned e w' /\
    follows w w' [Update key success] 0.
Proof.
  unfold updateDeviceStats. run.
  destruct (store_fault w (store_calls w)); cbn;
    [|destruct (store w !! key); cbn];
    do 2 eexists; (split; [reflexivity|]);
    unfold follows, actions; cbn; rewrite omap_app; auto.
Qed.

Lemma store_Delete_follows key w :
  exists e w',
    store_Delete key w = Returned e w' /\ follows w w' [Delete key] 0.
Proof.
  run. destruct (store_fault w (store_calls w)); cbn;
    do 2 eexists; (split; [reflexivity|]);
    unfold follows, actions; cbn; rewrite omap_app; auto.
Qed.

Lemma time_Sleep_follows d w :
  exists w', time_Sleep d w = Returned tt w' /\ follows w w' [Sleep d] 0.
Proof.
  run. eexists. split; [reflexivity|].
  unfold follows, actions; cbn; rewrite omap_app; auto.
Qed.

Section LoopFacts.

Variable url_Parse : string -> bool.

(** The attempt succeeded: one success update, and the loop is left. *)
Lemma push_loop_succeeded fuel payload key attempt w w1 :
  Push url_Parse (pApp payload) (pDeviceToken payload) (pEnvironment payload)
       (pData payload) w = Returned None w1 ->
  exists w',
    push_loop url_Parse (S fuel) payload key attempt w = Returned (Some tt) w' /\
    follows w1 w' [Update key true] 0.
Proof.
  intros HP. cbn [push_loop]. erewrite bind_Returned by exact HP.
  cbn [as_PushError andb].
  destruct (updateDeviceStats_follows key true w1) as (ue & w2 & HU & F2).
  change (bool_decide (@None error = None)) with true.
  erewrite bind_Returned by exact HU.
  destruct (when_err_follows ue (LogFailedToUpdate (pAccountID payload)) w2)
    as (w3 & HW & F3).
  erewrite bind_Returned by exact HW.
  exists w3. split; [reflexivity|].
  apply (follows_trans _ _ _ _ _ _ _ F2 F3).
Qed.

(** The attempt met a permanent verdict: one delete, and the loop is left. *)
Lemma push_loop_permanent fuel payload key attempt w w1 pe :
  Push url_Parse (pApp payload) (pDeviceToken payload) (pEnvironment payload)
       (pData payload) w = Returned (Some (ErrPush pe)) w1 ->
  Permanent pe = true ->
  exists w',
    push_loop url_Parse (S fuel) payload key attempt w = Returned (Some tt) w' /\
    follows w1 w' [Delete key] 0.
Proof.
  intros HP Hperm. cbn [push_loop]. erewrite bind_Returned by exact HP.
  cbn [as_PushError]. rewrite Hperm. cbn [andb].
  destruct (store_Delete_follows key (record (EvLog (LogPermanentFailure (pAccountID payload) pe)) w1))
    as (de & w2 & HD & F2).
  destruct (when_err_follows de (LogFailedToDelete (pAccountID payload)) w2)
    as (w3 & HW & F3).
  exists (record (EvLog (LogPayload (pAccountID payload) (pData payload))) w3).
  split.
  - unfold log_Printf, emit, modify. unfold mbind at 1 2 3. unfold M_bind at 1 2 3.
    cbn beta iota. unfold mbind at 1, M_bind at 1. rewrite HD.
    rewrite HW. reflexivity.
  - pose proof (follows_log (LogPermanentFailure (pAccountID payload) pe) w1) as F1.
    pose proof (follows_log (LogPayload (pAccountID payload) (pData payload)) w3) as F4.
    pose proof (follows_trans _ _ _ _ _ _ _ F1
                 (follows_trans _ _ _ _ _ _ _ F2
                   (follows_trans _ _ _ _ _ _ _ F3 F4))) as F.
    exact F.
Qed.

Lemma as_PushError_not_permanent e :
  not_permanent e ->
  (let '(pe, ok) := as_PushError (Some e) in ok && Permanent pe) = false.
Proof. destruct e; cbn; intros H; rewrite ?H; reflexivity. Qed.

(** The attempt failed without a permanent verdict: the failure is
    recorded, whatever the error is. *)
Lemma push_loop_failed fuel payload key attempt w w1 e :
  Push url_Parse (pApp payload) (pDeviceToken payload) (pEnvironment payload)
       (pData payload) w = Returned (Some e) w1 ->
  not_permanent e ->
  exists w2,
    follows w1 w2 [Update key false] 0 /\
    push_loop url_Parse (S fuel) payload key attempt w =
      (if attempt >=? MaxRetries then
         log_Printf (LogExceededMaxRetries (pAccountID payload));;
         log_Printf (LogPayload (pAccountID payload) (pData payload));;
         mret (Some tt)
       else
         time_Sleep (wrap (Exp2 (attempt - 1) * Second));;
         push_loop url_Parse fuel payload key (wrap (attempt + 1))) w2.
Proof.
  intros HP Hnp. cbn [push_loop]. erewrite bind_Returned by exact HP.
  pose proof (as_PushError_not_permanent e Hnp) as Hguard.
  destruct (as_PushError (Some e)) as [pe ok]. rewrite Hguard.
  change (bool_decide (Some e = None)) with false.
  destruct (updateDeviceStats_follows key false w1) as (ue & w2 & HU & F2).
  erewrite bind_Returned by exact HU.
  destruct (when_err_follows ue (LogFailedToUpdate (pAccountID payload)) w2)
    as (w3 & HW & F3).
  erewrite bind_Returned by exact HW.
  exists (record (EvLog (LogFailedToPush (pAccountID payload) attempt MaxRetries e)) w3).
  split.
  - pose proof (follows_log (LogFailedToPush (pAccountID payload) attempt MaxRetries e) w3) as F4.
    exact (follows_trans _ _ _ _ _ _ _ F2 (follows_trans _ _ _ _ _ _ _ F3 F4)).
  - reflexivity.
Qed.

(** ... and on the last attempt the notification is dropped. *)
Lemma push_loop_failed_last fuel payload key attempt w w1 e :
  Push url_Parse (pApp payload) (pDeviceToken payload) (pEnvironment payload)
       (pData payload) w = Returned (Some e) w1 ->
  not_permanent e ->
  MaxRetries <= attempt ->
  exists w',
    push_loop url_Parse (S fuel) payload key attempt w = Returned (Some tt) w' /\
    follows w1 w' [Update key false] 0.
Proof.
  intros HP Hnp Hlast.
  destruct (push_loop_failed fuel payload key attempt w w1 e HP Hnp) as (w2 & F2 & ->).
  rewrite (proj2 (Z.geb_le _ _) Hlast). run.
  eexists. split; [reflexivity|].
  pose proof (follows_log (LogExceededMaxRetries (pAccountID payload)) w2) as F3.
  exact (follows_trans _ _ _ _ _ _ _ F2
          (follows_trans _ _ _ _ _ _ _ F3
            (follows_log (LogPayload (pAccountID payload) (pData payload)) _))).
Qed.

(** ... and before the last attempt the loop sleeps and goes round. *)
Lemma push_loop_failed_again fuel payload key attempt w w1 e :
  Push url_Parse (pApp payload) (pDeviceToken payload) (pEnvironment payload)
       (pData payload) w = Returned (Some e) w1 ->
  not_permanent e ->
  attempt < MaxRetries ->
  exists w2,
    push_loop url_Parse (S fuel) payload key attempt w
      = push_loop url_Parse fuel payload key (wrap (attempt + 1)) w2 /\
    follows w1 w2 [Update key false; Sleep (wrap (Exp2 (attempt - 1) * Second))] 0.
Proof.
  intros HP Hnp Hmore.
  destruct (push_loop_failed fuel payload key attempt w w1 e HP Hnp) as (w2 & F2 & ->).
  assert ((attempt >=? MaxRetries) = false) as -> by (rewrite Z.geb_leb; apply Z.leb_gt; lia).
  destruct (time_Sleep_follows (wrap (Exp2 (attempt - 1) * Second)) w2) as (w3 & HS & F3).
  erewrite bind_Returned by exact HS.
  exists w3. split; [reflexivity|].
  exact (follows_trans _ _ _ _ _ _ _ F2 F3).
Qed.

Lemma actions_closing resp : actions (closing resp) = [].
Proof. unfold closing. destruct (RespStatus resp =? StatusOK); reflexivity. Qed.

Lemma attempt_answered payload w c resp :
  clients w !! pApp payload = Some c ->
  url_Parse (endpoint (pEnvironment payload) (pDeviceToken payload)) = true ->
  gateway w (sent w) = Responded resp ->
  exists w1,
    Push url_Parse (pApp payload) (pDeviceToken payload) (pEnvironment payload)
       (pData payload) w = Returned (outcome resp) w1 /\
    follows w w1 [Lookup (pApp payload); Send] 1.
Proof.
  intros Hc Hu Hg.
  destruct (Push_answered url_Parse _ _ _ (pData payload) w c resp Hc Hu Hg)
    as (req & w1 & HP & Ht & _ & Hcl & Hgw & Hs).
  exists w1. split; [exact HP|]. unfold follows, actions.
  rewrite Ht, !omap_app. fold (actions (closing resp)).
  rewrite actions_closing, app_nil_r. auto.
Qed.

Lemma attempt_unanswered payload w c detail :
  clients w !! pApp payload = Some c ->
  url_Parse (endpoint (pEnvironment payload) (pDeviceToken payload)) = true ->
  gateway w (sent w) = NoResponse detail ->
  exists w1,
    Push url_Parse (pApp payload) (pDeviceToken payload) (pEnvironment payload)
       (pData payload) w = Returned (Some (ErrTransport detail)) w1 /\
    follows w w1 [Lookup (pApp payload); Send] 1.
Proof.
  intros Hc Hu Hg.
  destruct (Push_unanswered url_Parse _ _ _ (pData payload) w c detail Hc Hu Hg)
    as (req & w1 & HP & Ht & _ & Hcl & Hgw & Hs).
  exists w1. split; [exact HP|]. unfold follows, actions.
  rewrite Ht, !omap_app. auto.
Qed.

Lemma outcome_transient resp :
  transient (Responded resp) ->
  exists e, outcome resp = Some e /\ not_permanent e.
Proof.
  cbn. intros H. unfold outcome.
  assert ((RespStatus resp =? StatusOK) = false) as ->
    by (apply Z.eqb_neq; unfold StatusOK; lia).
  destruct (RespBody resp) as [body|detail]; eexists; (split; [reflexivity|]); cbn; [|exact I].
  apply not_true_is_false. rewrite Permanent_iff. cbn. lia.
Qed.

Lemma attempt_transient payload w c :
  clients w !! pApp payload = Some c ->
  url_Parse (endpoint (pEnvironment payload) (pDeviceToken payload)) = true ->
  transient (gateway w (sent w)) ->
  exists e w1,
    Push url_Parse (pApp payload) (pDeviceToken payload) (pEnvironment payload)
       (pData payload) w = Returned (Some e) w1 /\
    not_permanent e /\
    follows w w1 [Lookup (pApp payload); Send] 1.
Proof.
  intros Hc Hu Ht. destruct (gateway w (sent w)) as [detail|resp] eqn:Hg.
  - destruct (attempt_unanswered payload w c detail Hc Hu Hg) as (w1 & HP & F).
    exists (ErrTransport detail), w1. cbn. auto.
  - destruct (outcome_transient resp Ht) as (e & He & Hnp).
    destruct (attempt_answered payload w c resp Hc Hu Hg) as (w1 & HP & F).
    rewrite He in HP. eauto.
Qed.

(** One failed round of the loop on a transient answer. *)
Lemma round_transient fuel payload key attempt w c :
  clients w !! pApp payload = Some c ->
  url_Parse (endpoint (pEnvironment payload) (pDeviceToken payload)) = true ->
  transient (gateway w (sent w)) ->
  attempt < MaxRetries ->
  exists w2,
    push_loop url_Parse (S fuel) payload key attempt w
      = push_loop url_Parse fuel payload key (wrap (attempt + 1)) w2 /\
    follows w w2 [Lookup (pApp payload); Send; Update key false;
                  Sleep (wrap (Exp2 (attempt - 1) * Second))] 1.
Proof.
  intros Hc Hu Ht Hmore.
  destruct (attempt_transient payload w c Hc Hu Ht) as (e & w1 & HP & Hnp & F1).
  destruct (push_loop_failed_again fuel payload key attempt w w1 e HP Hnp Hmore)
    as (w2 & Heq & F2).
  exists w2. split; [exact Heq|].
  exact (follows_trans _ _ _ _ _ _ _ F1 F2).
Qed.

Lemma round_transient_last fuel payload key attempt w c :
  clients w !! pApp payload = Some c ->
  url_Parse (endpoint (pEnvironment payload) (pDeviceToken payload)) = true ->
  transient (gateway w (sent w)) ->
  MaxRetries <= attempt ->
  exists w',
    push_loop url_Parse (S fuel) payload key attempt w = Returned (Some tt) w' /\
    follows w w' [Lookup (pApp payload); Send; Update key false] 1.
Proof.
  intros Hc Hu Ht Hlast.
  destruct (attempt_transient payload w c Hc Hu Ht) as (e & w1 & HP & Hnp & F1).
  destruct (push_loop_failed_last fuel payload key attempt w w1 e HP Hnp Hlast)
    as (w2 & Heq & F2).
  exists w2. split; [exact Heq|].
  exact (follows_trans _ _ _ _ _ _ _ F1 F2).
Qed.

(** [Push] always returns to its caller. *)
Lemma Push_returns app token env data w :
  exists e w1, Push url_Parse app token env data w = Returned e w1.
Proof.
  destruct (clients w !! app) as [c|] eqn:Hc.
  - destruct (url_Parse (endpoint env token)) eqn:Hu.
    + destruct (gateway w (sent w)) as [detail|resp] eqn:Hg.
      * destruct (Push_unanswered url_Parse app token env data w c detail Hc Hu Hg)
          as (req & w1 & HP & _). eauto.
      * destruct (Push_answered url_Parse app token env data w c resp Hc Hu Hg)
          as (req & w1 & HP & _). eauto.
    + rewrite (Push_bad_url url_Parse app token env data w c Hc Hu). eauto.
  - rewrite (Push_unknown_app url_Parse app token env data w Hc). eauto.
Qed.

(** A round of the loop either leaves it or, before the last attempt,
    goes on with the next attempt number. *)
Lemma push_loop_round fuel payload key attempt w :
  (exists w', push_loop url_Parse (S fuel) payload key attempt w = Returned (Some tt) w') \/
  (attempt < MaxRetries /\
   exists w2, push_loop url_Parse (S fuel) payload key attempt w
              = push_loop url_Parse fuel payload key (wrap (attempt + 1)) w2).
Proof.
  destruct (Push_returns (pApp payload) (pDeviceToken payload) (pEnvironment payload)
              (pData payload) w) as (e & w1 & HP).
  destruct e as [e|].
  - assert (Hcases : (exists pe, e = ErrPush pe /\ Permanent pe = true) \/ not_permanent e).
    { destruct e as [pe| | | |]; cbn; auto.
      destruct (Permanent pe) eqn:Hp; eauto. }
    destruct Hcases as [(pe & -> & Hp)|Hnp].
    + destruct (push_loop_permanent fuel payload key attempt w w1 pe HP Hp) as (w' & H & _).
      eauto.
    + destruct (Z.lt_ge_cases attempt MaxRetries) as [Hmore|Hlast].
      * destruct (push_loop_failed_again fuel payload key attempt w w1 e HP Hnp Hmore)
          as (w2 & H & _). eauto.
      * destruct (push_loop_failed_last fuel payload key attempt w w1 e HP Hnp Hlast)
          as (w' & H & _). eauto.
  - destruct (push_loop_succeeded fuel payload key attempt w w1 HP) as (w' & H & _).
    eauto.
Qed.

(** The fuel that [push] gives its loop is enough: [push] returns on every
    payload, in every world. *)
Lemma push_returns payload w :
  exists w', push url_Parse payload w = Returned (Some tt) w'.
Proof.
  unfold push. destruct (String.eqb (pApp payload) "").
  - run. eauto.
  - change (Z.to_nat MaxRetries) with 3%nat.
    destruct (push_loop_round 2 payload (pAccountID payload, pDeviceToken payload) 1 w)
      as [H|(_ & w2 & ->)]; [exact H|].
    change (wrap (1 + 1)) with (wrap 2). rewrite (wrap_small 2) by (vm_compute; split; discriminate).
    destruct (push_loop_round 1 payload (pAccountID payload, pDeviceToken payload) 2 w2)
      as [H|(_ & w3 & ->)]; [exact H|].
    change (wrap (2 + 1)) with (wrap 3). rewrite (wrap_small 3) by (vm_compute; split; discriminate).
    destruct (push_loop_round 0 payload (pAccountID payload, pDeviceToken payload) 3 w3)
      as [H|(Hlt & _)]; [exact H|].
    unfold MaxRetries in Hlt. lia.
Qed.

End LoopFacts.

(** ** The dispatcher, claim by claim *)

(** C6: in any round of the loop, when the delivery attempt comes back with
    status 200 the dispatcher makes one device-record update with
    success = true and returns: one lookup, one request, one update, no
    delete, no sleep, nothing after. *)
Theorem C6_success_updates_once
    (url_Parse : string -> bool)
    (fuel : nat) (payload : Payload) (key : Key) (attempt : Z)
    (w : World) (c : Client) (resp : Response)
    (Hc : clients w !! pApp payload = Some c)
    (Hu : url_Parse (endpoint (pEnvironment payload) (pDeviceToken payload)) = true)
    (Hg : gateway w (sent w) = Responded resp)
    (H200 : RespStatus resp = 200) :
  exists w',
    push_loop url_Parse (S fuel) payload key attempt w = Returned (Some tt) w' /\
    actions (trace w') =
      actions (trace w) ++ [Lookup (pApp payload); Send; Update key true] /\
    sent w' = S (sent w).
Proof.
  destruct (attempt_answered url_Parse payload w c resp Hc Hu Hg) as (w1 & HP & F1).
  assert (outcome resp = None) as Hout by (unfold outcome; rewrite H200; reflexivity).
  rewrite Hout in HP.
  destruct (push_loop_succeeded url_Parse fuel payload key attempt w w1 HP)
    as (w' & Hrun & F2).
  destruct (follows_trans _ _ _ _ _ _ _ F1 F2) as (Ht & _ & _ & Hs).
  exists w'. auto.
Qed.

Lemma C6_success_updates_once_witness :
  let w := sample_world (fun _ => answer 200 []) in
  exists w',
    push any_url (sample_payload ReactionCam) w = Returned (Some tt) w' /\
    actions (trace w') = [Lookup ReactionCam; Send; Update (7, "token") true] /\
    sent w' = 1%nat.
Proof.
  intros w.
  apply (C6_success_updates_once any_url 2 (sample_payload ReactionCam) (7, "token") 1
           w sample_client {| RespStatus := 200; RespBody := inl [] |});
    reflexivity.
Defined.

(** C4: a delivery outcome with status 400 or 410 is classified Permanent,
    and in any round of the loop the dispatcher then issues one delete for
    the device record and returns: no bookkeeping update, no sleep, no
    further attempt. *)
Theorem C4_permanent_deletes_once
    (url_Parse : string -> bool)
    (fuel : nat) (payload : Payload) (key : Key) (attempt : Z)
    (w : World) (c : Client) (resp : Response) (body : Bytes)
    (Hc : clients w !! pApp payload = Some c)
    (Hu : url_Parse (endpoint (pEnvironment payload) (pDeviceToken payload)) = true)
    (Hg : gateway w (sent w) = Responded resp)
    (Hbody : RespBody resp = inl body)
    (Hstatus : RespStatus resp = 400 \/ RespStatus resp = 410) :
  Permanent {| Body := body; StatusCode := RespStatus resp |} = true /\
  exists w',
    push_loop url_Parse (S fuel) payload key attempt w = Returned (Some tt) w' /\
    actions (trace w') =
      actions (trace w) ++ [Lookup (pApp payload); Send; Delete key] /\
    sent w' = S (sent w).
Proof.
  assert (Hperm : Permanent {| Body := body; StatusCode := RespStatus resp |} = true)
    by (apply Permanent_iff; exact Hstatus).
  split; [exact Hperm|].
  destruct (attempt_answered url_Parse payload w c resp Hc Hu Hg) as (w1 & HP & F1).
  assert (outcome resp = Some (ErrPush {| Body := body; StatusCode := RespStatus resp |}))
    as Hout.
  { unfold outcome. rewrite Hbody.
    assert ((RespStatus resp =? StatusOK) = false) as ->
      by (apply Z.eqb_neq; unfold StatusOK; lia).
    reflexivity. }
  rewrite Hout in HP.
  destruct (push_loop_permanent url_Parse fuel payload key attempt w w1 _ HP Hperm)
    as (w' & Hrun & F2).
  destruct (follows_trans _ _ _ _ _ _ _ F1 F2) as (Ht & _ & _ & Hs).
  exists w'. auto.
Qed.

Lemma C4_permanent_deletes_once_witness :
  let w := sample_world (fun _ => answer 410 []) in
  Permanent {| Body := []; StatusCode := 410 |} = true /\
  exists w',
    push any_url (sample_payload ReactionCam) w = Returned (Some tt) w' /\
    actions (trace w') = [Lookup ReactionCam; Send; Delete (7, "token")] /\
    sent w' = 1%nat.
Proof.
  intros w.
  apply (C4_permanent_deletes_once any_url 2 (sample_payload ReactionCam) (7, "token") 1
           w sample_client {| RespStatus := 410; RespBody := inl [] |} []);
    try reflexivity.
  right. reflexivity.
Defined.

(** C5, as stated, fails on the source: with status 503 on every attempt
    the dispatcher pauses twice, for 1s and 2s; after the third failed
    attempt it drops the notification at once, and no pause of 4s exists. *)
Lemma C5_no_pause_after_third_failure :
  let w := sample_world (fun _ => answer 503 []) in
  let acts := actions (trace (final (push any_url (sample_payload ReactionCam) w))) in
  delays acts = [1 * Second; 2 * Second] /\
  delays acts <> [1 * Second; 2 * Second; 4 * Second].
Proof. vm_compute. split; [reflexivity | discriminate]. Qed.

(** C5, amended: statuses 429, 500 and 503 are classified Retryable, and
    when three attempts in a row end in such a status or in a
    transport-level error, the dispatcher makes exactly three attempts,
    records one failure after each, pauses 2^(n-1) seconds after failed
    attempt n for n = 1 and n = 2 only (1s, then 2s), and returns after the
    third failure without a pause. *)
Theorem C5_three_attempts_two_pauses
    (url_Parse : string -> bool)
    (payload : Payload) (w : World) (c : Client)
    (Happ : pApp payload <> "")
    (Hc : clients w !! pApp payload = Some c)
    (Hu : url_Parse (endpoint (pEnvironment payload) (pDeviceToken payload)) = true)
    (H1 : transient (gateway w (sent w)))
    (H2 : transient (gateway w (S (sent w))))
    (H3 : transient (gateway w (S (S (sent w))))) :
  (forall pe, StatusCode pe = 429 \/ StatusCode pe = 500 \/ StatusCode pe = 503 ->
              Retryable pe = true) /\
  exists w',
    push url_Parse payload w = Returned (Some tt) w' /\
    let app := pApp payload in
    let key := (pAccountID payload, pDeviceToken payload) in
    actions (trace w') =
      actions (trace w) ++
      [Lookup app; Send; Update key false; Sleep (1 * Second);
       Lookup app; Send; Update key false; Sleep (2 * Second);
       Lookup app; Send; Update key false] /\
    sent w' = (3 + sent w)%nat.
Proof.
  split; [intros pe; apply Retryable_iff|].
  unfold push. apply String.eqb_neq in Happ. rewrite Happ.
  change (Z.to_nat MaxRetries) with 3%nat.
  set (key := (pAccountID payload, pDeviceToken payload)).
  destruct (round_transient url_Parse 2 payload key 1 w c Hc Hu H1 eq_refl)
    as (w1 & -> & F1).
  pose proof F1 as (_ & Hc1 & Hg1 & Hs1).
  rewrite <- Hc1 in Hc. rewrite <- Hg1 in H2, H3.
  cbn in Hs1. rewrite <- Hs1 in H2, H3.
  change (wrap (1 + 1)) with 2.
  destruct (round_transient url_Parse 1 payload key 2 w1 c Hc Hu H2 eq_refl)
    as (w2 & -> & F2).
  pose proof F2 as (_ & Hc2 & Hg2 & Hs2).
  rewrite <- Hc2 in Hc. rewrite <- Hg2 in H3.
  cbn in Hs2. rewrite <- Hs2 in H3.
  change (wrap (2 + 1)) with 3.
  destruct (round_transient_last url_Parse 0 payload key 3 w2 c Hc Hu H3)
    as (w3 & -> & F3); [unfold MaxRetries; lia|].
  destruct (follows_trans _ _ _ _ _ _ _ F1 (follows_trans _ _ _ _ _ _ _ F2 F3))
    as (Ht & _ & _ & Hs).
  exists w3. split; [reflexivity|]. split; [exact Ht|]. rewrite Hs. reflexivity.
Qed.

Lemma C5_three_attempts_two_pauses_witness :
  let w := sample_world (fun n => match n with O => NoResponse "timeout" | _ => answer 503 [] end) in
  (forall pe, StatusCode pe = 429 \/ StatusCode pe = 500 \/ StatusCode pe = 503 ->
              Retryable pe = true) /\
  exists w',
    push any_url (sample_payload ReactionCam) w = Returned (Some tt) w' /\
    actions (trace w') =
      [Lookup ReactionCam; Send; Update (7, "token") false; Sleep 1000000000;
       Lookup ReactionCam; Send; Update (7, "token") false; Sleep 2000000000;
       Lookup ReactionCam; Send; Update (7, "token") false] /\
    sent w' = 3%nat.
Proof.
  intros w.
  apply (C5_three_attempts_two_pauses any_url (sample_payload ReactionCam) w sample_client);
    try reflexivity; cbn; auto.
Defined.

(** C1: the source does not do what the claim says.  Status 403 is neither
    Permanent nor Retryable, yet the dispatcher treats it as any other
    failure and goes round the loop: three attempts, three failure updates
    and two pauses, where the claim has one update and no further attempt.
    The branch of [push] that would drop such an outcome sits under the
    test [ok && Permanent pe] and is never reached. *)
Theorem C1_status_403_is_retried :
  let w := sample_world (fun _ => answer 403 []) in
  let pe := {| Body := []; StatusCode := 403 |} in
  Permanent pe = false /\ Retryable pe = false /\
  exists w',
    push any_url (sample_payload ReactionCam) w = Returned (Some tt) w' /\
    actions (trace w') =
      [Lookup ReactionCam; Send; Update (7, "token") false; Sleep (1 * Second);
       Lookup ReactionCam; Send; Update (7, "token") false; Sleep (2 * Second);
       Lookup ReactionCam; Send; Update (7, "token") false] /\
    (Failures <$> store w' !! (7, "token")) = Some 3.
Proof.
  intros w pe. split; [reflexivity|]. split; [reflexivity|].
  eexists. split; [vm_compute; reflexivity|]. split; vm_compute; reflexivity.
Qed.

(** C2, as stated, fails on the source: for an application that is not in
    the registry and whose name is not empty, every round of the loop looks
    the transport up, and the device record is updated three times. *)
Lemma C2_unregistered_app_is_retried :
  let w := sample_world (fun _ => answer 200 []) in
  let w' := final (push any_url (sample_payload "other.app") w) in
  clients w !! "other.app" = None /\
  actions (trace w') =
    [Lookup "other.app"; Update (7, "token") false; Sleep (1 * Second);
     Lookup "other.app"; Update (7, "token") false; Sleep (2 * Second);
     Lookup "other.app"; Update (7, "token") false] /\
  (Failures <$> store w !! (7, "token")) = Some 0 /\
  (Failures <$> store w' !! (7, "token")) = Some 3.
Proof. vm_compute. auto. Qed.

(** C2, amended: a notification whose application identifier is empty is
    dropped at once with the unrecognized-app log line: no transport
    lookup, no request, no device record read, written or deleted.  For an
    identifier that is absent from the registry, a delivery attempt stops at
    its lookup with the invalid-app error: no request is sent and no device
    record is touched by the attempt. *)
Theorem C2_empty_app_dropped_absent_app_refused
    (url_Parse : string -> bool)
    (payload : Payload) (app token env : string) (data : Bytes) (w : World)
    (Hempty : pApp payload = "")
    (Habsent : clients w !! app = None) :
  (exists w',
     push url_Parse payload w = Returned (Some tt) w' /\
     trace w' = trace w ++ [EvLog (LogUnrecognizedApp "")] /\
     store w' = store w /\ sent w' = sent w /\ store_calls w' = store_calls w) /\
  (exists w',
     Push url_Parse app token env data w = Returned (Some (ErrInvalidApp app)) w' /\
     trace w' = trace w ++ [EvLookup app] /\
     store w' = store w /\ sent w' = sent w /\ store_calls w' = store_calls w).
Proof.
  split.
  - unfold push. rewrite Hempty. cbn [String.eqb]. run. eauto 10.
  - rewrite (Push_unknown_app url_Parse app token env data w Habsent).
    eexists. split; [reflexivity|]. cbn. auto.
Qed.

Lemma C2_empty_app_dropped_absent_app_refused_witness :
  let w := sample_world (fun _ => answer 200 []) in
  (exists w',
     push any_url (sample_payload "") w = Returned (Some tt) w' /\
     trace w' = [EvLog (LogUnrecognizedApp "")] /\
     store w' = store w /\ sent w' = sent w /\ store_calls w' = store_calls w) /\
  (exists w',
     Push any_url "other.app" "token" "production" [] w
       = Returned (Some (ErrInvalidApp "other.app")) w' /\
     trace w' = [EvLookup "other.app"] /\
     store w' = store w /\ sent w' = sent w /\ store_calls w' = store_calls w).
Proof.
  intros w.
  apply (C2_empty_app_dropped_absent_app_refused any_url (sample_payload "")
           "other.app" "token" "production" [] w);
    reflexivity.
Defined.

(** * Further properties of the source *)

(** ** Counting *)

Lemma tally_app p a b : tally p (a ++ b) = (tally p a + tally p b)%nat.
Proof. unfold tally. rewrite List.filter_app, length_app. reflexivity. Qed.

Lemma pause_total_app a b : pause_total (a ++ b) = pause_total a + pause_total b.
Proof.
  unfold pause_total, delays. rewrite omap_app.
  induction (omap delay_of a) as [|d ds IH]; cbn; [reflexivity|]. rewrite IH. lia.
Qed.

Lemma evolves_refl w : evolves w w [].
Proof. split; cbn; rewrite ?app_nil_r; auto; lia. Qed.

Lemma evolves_trans w1 w2 w3 a1 a2 :
  evolves w1 w2 a1 -> evolves w2 w3 a2 -> evolves w1 w3 (a1 ++ a2).
Proof.
  intros [Ht1 Hc1 Hk1 Hg1 Hf1 Hs1 Hn1] [Ht2 Hc2 Hk2 Hg2 Hf2 Hs2 Hn2].
  split; try congruence.
  - rewrite Ht2, Ht1, app_assoc. reflexivity.
  - rewrite Hs2, Hs1, tally_app. lia.
  - rewrite Hn2, Hn1, pause_total_app. lia.
Qed.

Lemma evolves_follows w w' acts :
  evolves w w' acts -> follows w w' acts (tally is_send acts).
Proof. intros [Ht Hc _ Hg _ Hs _]. unfold follows. repeat split; auto; lia. Qed.

Lemma evolves_log l w : evolves w (record (EvLog l) w) [].
Proof. split; cbn; rewrite ?app_nil_r; auto; try lia. unfold actions. rewrite omap_app. cbn. apply app_nil_r. Qed.

Ltac evolved :=
  split; cbn; auto; try lia;
  unfold actions; rewrite ?omap_app; cbn; rewrite <- ?app_assoc; reflexivity.

Lemma when_err_evolves e l w :
  exists w', when_err e l w = Returned tt w' /\ evolves w w' [] /\
             store w' = store w /\ store_calls w' = store_calls w /\
             timestamp w' = timestamp w.
Proof.
  destruct e; run; eexists; (split; [reflexivity|]); cbn;
    (split; [first [apply evolves_log | apply evolves_refl]|auto]).
Qed.

Lemma time_Sleep_evolves d w :
  exists w', time_Sleep d w = Returned tt w' /\ evolves w w' [Sleep d] /\
             store w' = store w /\ store_calls w' = store_calls w /\
             timestamp w' = timestamp w.
Proof.
  run. eexists. split; [reflexivity|]. split; [|cbn; auto]. evolved.
Qed.

Lemma updateDeviceStats_spec key success w :
  exists e w',
    updateDeviceStats key success w = Returned e w' /\
    evolves w w' [Update key success] /\
    store w' = updated_store w key success /\
    store_calls w' = S (store_calls w) /\
    timestamp w' = timestamp w /\
    (e = None <-> store_fault w (store_calls w) = None /\ is_Some (store w !! key)).
Proof.
  unfold updateDeviceStats, updated_store. run.
  destruct (store_fault w (store_calls w)) as [detail|]; cbn;
    [|destruct (store w !! key) as [d|]; cbn];
    do 2 eexists; (split; [reflexivity|]); (split; [evolved|]); cbn;
    repeat split; auto; try discriminate;
    try (intros [H1 H2]; first [discriminate H1 | destruct H2 as [? H2]; discriminate H2]);
    eauto.
Qed.

Lemma store_Delete_spec key w :
  exists e w',
    store_Delete key w = Returned e w' /\
    evolves w w' [Delete key] /\
    store w' = deleted_store w key /\
    store_calls w' = S (store_calls w) /\
    timestamp w' = timestamp w /\
    (e = None <-> store_fault w (store_calls w) = None).
Proof.
  unfold deleted_store. run.
  destruct (store_fault w (store_calls w)) as [detail|]; cbn;
    do 2 eexists; (split; [reflexivity|]); (split; [evolved|]); cbn;
    repeat split; auto; discriminate.
Qed.

(** ** One delivery attempt, in full *)

Section AttemptFacts.

Variable url_Parse : string -> bool.

(** [Push] against its worldless view: the error, the actions, and what
    is left alone. *)
Lemma Push_view app token env data w :
  exists w1,
    Push url_Parse app token env data w
      = Returned (attempt_view app token env (clients w !! app)
                    (url_Parse (endpoint env token)) (gateway w (sent w))).1 w1 /\
    evolves w w1 (attempt_view app token env (clients w !! app)
                    (url_Parse (endpoint env token)) (gateway w (sent w))).2 /\
    store w1 = store w /\ store_calls w1 = store_calls w /\
    timestamp w1 =
      match clients w !! app, url_Parse (endpoint env token), gateway w (sent w) with
      | Some _, true, Responded _ => clock w
      | _, _, _ => timestamp w
      end.
Proof.
  unfold Push, http_NewRequest, attempt_view, outcome. run.
  destruct (clients w !! app) as [c|]; cbn.
  - destruct (url_Parse (endpoint env token)); cbn.
    + destruct (gateway w (sent w)) as [detail|resp]; cbn.
      * eexists. split; [reflexivity|]. split; [evolved|cbn; auto].
      * destruct (RespStatus resp =? StatusOK); cbn;
          [|destruct (RespBody resp); cbn];
          eexists; (split; [reflexivity|]); (split; [evolved|cbn; auto]).
    + eexists. split; [reflexivity|]. split; [evolved|cbn; auto].
  - eexists. split; [reflexivity|]. split; [evolved|cbn; auto].
Qed.

End AttemptFacts.

Lemma seven_days now : expiration_of now = now / Second + 604800.
Proof.
  unfold expiration_of.
  change (168 * Hour) with (604800 * Second).
  apply Z.div_add. discriminate.
Qed.

(** X1: the request of a delivery attempt.  For a registered application
    whose address parses, [Push] looks the transport up and sends, through
    that transport, one POST to /3/device/<token> on the sandbox host when
    the environment is exactly "development" and on the production host
    otherwise, with the payload as body and three headers: the expiration
    (now in Unix seconds plus seven days, in decimal), the topic (the
    application identifier) and the JSON content type. *)
Theorem Push_request_shape
    (url_Parse : string -> bool)
    (app token env : string) (data : Bytes) (w : World) (c : Client)
    (Hc : clients w !! app = Some c)
    (Hu : url_Parse (endpoint env token) = true) :
  exists e w' url rest,
    Push url_Parse app token env data w = Returned e w' /\
    trace w' =
      trace w ++
      [EvLookup app;
       EvDo c {| Method := "POST";
                 URL := url;
                 Header := [("apns-expiration", pretty (clock w / Second + 604800));
                            ("apns-topic", app);
                            ("Content-Type", "application/json")];
                 ReqBody := data |}] ++ rest /\
    (env = "development" ->
     url = "https://api.development.push.apple.com/3/device/" +:+ token) /\
    (env <> "development" ->
     url = "https://api.push.apple.com/3/device/" +:+ token).
Proof.
  assert (Hreq : with_headers app (clock w) (mkRequest "POST" (endpoint env token) [] data)
                 = {| Method := "POST"; URL := endpoint env token;
                      Header := [("apns-expiration", pretty (clock w / Second + 604800));
                                 ("apns-topic", app);
                                 ("Content-Type", "application/json")];
                      ReqBody := data |}).
  { unfold with_headers, Header_Set. cbn [Method URL Header ReqBody].
    rewrite seven_days. reflexivity. }
  assert (Hurl : (env = "development" ->
                  endpoint env token = "https://api.development.push.apple.com/3/device/" +:+ token) /\
                 (env <> "development" ->
                  endpoint env token = "https://api.push.apple.com/3/device/" +:+ token)).
  { unfold endpoint. split; intros H.
    - subst env. reflexivity.
    - apply String.eqb_neq in H. rewrite H. reflexivity. }
  unfold Push, http_NewRequest. run. rewrite Hc, Hu. cbn. rewrite Hreq.
  destruct (gateway w (sent w)) as [detail|resp]; cbn.
  - do 2 eexists. exists (endpoint env token), []. split; [reflexivity|].
    cbn. rewrite <- !app_assoc. auto.
  - destruct (RespStatus resp =? StatusOK); cbn;
      [|destruct (RespBody resp); cbn]; do 2 eexists; exists (endpoint env token);
      eexists; (split; [reflexivity|]); cbn; rewrite <- !app_assoc; cbn; auto.
Qed.

Lemma Push_request_shape_witness :
  let w := sample_world (fun _ => NoResponse "timeout") in
  exists e w' url rest,
    Push any_url ReactionCam "token" "development" ["{"%byte; "}"%byte] w = Returned e w' /\
    trace w' =
      [EvLookup ReactionCam;
       EvDo sample_client
            {| Method := "POST";
               URL := url;
               Header := [("apns-expiration", pretty (100 / Second + 604800));
                          ("apns-topic", ReactionCam);
                          ("Content-Type", "application/json")];
               ReqBody := ["{"%byte; "}"%byte] |}] ++ rest /\
    ("development" = "development" ->
     url = "https://api.development.push.apple.com/3/device/" +:+ "token") /\
    ("development" <> "development" ->
     url = "https://api.push.apple.com/3/device/" +:+ "token").
Proof.
  intros w.
  apply (Push_request_shape any_url ReactionCam "token" "development"
           ["{"%byte; "}"%byte] w sample_client); reflexivity.
Defined.

(** X2: what a delivery attempt never does.  Whatever its arguments and
    the world, [Push] returns to its caller (it neither panics nor exits),
    looks the registry up once, sends at most one request, and leaves the
    registry, the device store, the count of datastore calls, the
    credentials and the clock as they were. *)
Theorem Push_leaves_store_and_registry
    (url_Parse : string -> bool)
    (app token env : string) (data : Bytes) (w : World) :
  exists e w' acts,
    Push url_Parse app token env data w = Returned e w' /\
    actions (trace w') = actions (trace w) ++ acts /\
    tally is_lookup acts = 1%nat /\
    (tally is_send acts <= 1)%nat /\
    tally is_update acts = 0%nat /\ tally is_delete acts = 0%nat /\
    sent w' = (sent w + tally is_send acts)%nat /\
    clients w' = clients w /\ store w' = store w /\
    store_calls w' = store_calls w /\ credentials w' = credentials w /\
    clock w' = clock w.
Proof.
  destruct (Push_view url_Parse app token env data w) as (w1 & HP & Hev & Hst & Hsc & _).
  destruct Hev as [Ht Hc Hk Hg Hf Hs Hn].
  do 3 eexists. split; [exact HP|]. split; [exact Ht|].
  unfold attempt_view in *.
  destruct (clients w !! app); [destruct (url_Parse (endpoint env token))|];
    cbn in *; repeat split; auto; lia.
Qed.

(** X3: what a delivery attempt returns.  [Push] returns nil exactly when
    the application is registered, the address parses and the gateway
    answers with status 200; it returns a [PushError] exactly when the
    gateway answers with another status and the body can be read, and the
    error then carries that status and that body. *)
Theorem Push_result_characterised
    (url_Parse : string -> bool)
    (app token env : string) (data : Bytes) (w : World) :
  exists e w',
    Push url_Parse app token env data w = Returned e w' /\
    (e = None <->
     exists c resp,
       clients w !! app = Some c /\ url_Parse (endpoint env token) = true /\
       gateway w (sent w) = Responded resp /\ RespStatus resp = 200) /\
    (forall pe,
       e = Some (ErrPush pe) <->
       exists c resp,
         clients w !! app = Some c /\ url_Parse (endpoint env token) = true /\
         gateway w (sent w) = Responded resp /\ RespStatus resp <> 200 /\
         RespStatus resp = StatusCode pe /\ RespBody resp = inl (Body pe)).
Proof.
  destruct (Push_view url_Parse app token env data w) as (w1 & HP & _).
  do 2 eexists. split; [exact HP|]. unfold attempt_view, outcome.
  destruct (clients w !! app) as [c|];
    [destruct (url_Parse (endpoint env token));
       [destruct (gateway w (sent w)) as [detail|resp];
          [|destruct (Z.eqb_spec (RespStatus resp) StatusOK) as [H200|H200];
              [|destruct (RespBody resp) as [body|detail] eqn:Hbody]]|]|];
    cbn [fst]; unfold StatusOK in *.
  all: split; [split; [intros H; try discriminate H|intros (c' & resp' & H1 & H2 & H3 & H4); try congruence]
              |intros pe; split; [intros H; try discriminate H|intros (c' & resp' & H1 & H2 & H3 & H4 & H5 & H6); try congruence]].
  - eauto 10.
  - injection H as <-. exists c, resp. cbn. auto 10.
  - injection H3 as <-. destruct pe as [b s]; cbn in *. congruence.
Qed.

(** X4: without an answer there is no [PushError] and no new timestamp.
    When the application is not registered, or the address does not parse,
    or the gateway does not answer, [Push] returns an error that is not a
    [PushError] (so the type assertion of [push] fails on it) and the
    process-wide timestamp keeps its value; in the first two cases nothing
    is sent. *)
Theorem Push_without_answer
    (url_Parse : string -> bool)
    (app token env : string) (data : Bytes) (w : World)
    (H : clients w !! app = None \/
         url_Parse (endpoint env token) = false \/
         exists detail, gateway w (sent w) = NoResponse detail) :
  exists e w',
    Push url_Parse app token env data w = Returned (Some e) w' /\
    as_PushError (Some e) = ({| Body := []; StatusCode := 0 |}, false) /\
    timestamp w' = timestamp w /\
    (clients w !! app = None \/ url_Parse (endpoint env token) = false ->
     sent w' = sent w).
Proof.
  destruct (Push_view url_Parse app token env data w) as (w1 & HP & Hev & _ & _ & Hts).
  destruct Hev as [_ _ _ _ _ Hs _].
  unfold attempt_view in *.
  destruct (clients w !! app) as [c|] eqn:Hc;
    [destruct (url_Parse (endpoint env token)) eqn:Hu;
       [destruct (gateway w (sent w)) as [detail|resp] eqn:Hg|]|];
    cbn in *.
  - do 2 eexists. split; [exact HP|]. repeat split; auto.
    intros [?|?]; discriminate.
  - exfalso. destruct H as [H|[H|[d H]]]; discriminate.
  - do 2 eexists. split; [exact HP|]. repeat split; auto. intros _. lia.
  - do 2 eexists. split; [exact HP|]. repeat split; auto. intros _. lia.
Qed.

Lemma Push_without_answer_witness :
  let w := sample_world (fun _ => answer 200 []) in
  exists e w',
    Push (fun _ => false) ReactionCam "to ken" "production" [] w = Returned (Some e) w' /\
    as_PushError (Some e) = ({| Body := []; StatusCode := 0 |}, false) /\
    timestamp w' = 5 /\
    (clients w !! ReactionCam = None \/ false = false -> sent w' = 0%nat).
Proof.
  intros w.
  apply (Push_without_answer (fun _ => false) ReactionCam "to ken" "production" [] w).
  right. left. reflexivity.
Defined.

(** ** The rounds of the loop, with the store *)

Section RoundFacts.

Variable url_Parse : string -> bool.

Lemma round_delivered fuel payload key attempt w w1 :
  Push url_Parse (pApp payload) (pDeviceToken payload) (pEnvironment payload)
       (pData payload) w = Returned None w1 ->
  exists w',
    push_loop url_Parse (S fuel) payload key attempt w = Returned (Some tt) w' /\
    evolves w1 w' [Update key true] /\
    store w' = updated_store w1 key true /\
    store_calls w' = S (store_calls w1) /\
    timestamp w' = timestamp w1.
Proof.
  intros HP. cbn [push_loop]. erewrite bind_Returned by exact HP.
  cbn [as_PushError andb].
  destruct (updateDeviceStats_spec key true w1) as (ue & w2 & HU & E2 & Hst2 & Hsc2 & Hts2 & _).
  change (bool_decide (@None error = None)) with true.
  erewrite bind_Returned by exact HU.
  destruct (when_err_evolves ue (LogFailedToUpdate (pAccountID payload)) w2)
    as (w3 & HW & E3 & Hst3 & Hsc3 & Hts3).
  erewrite bind_Returned by exact HW.
  exists w3. split; [reflexivity|].
  split; [exact (evolves_trans _ _ _ _ _ E2 E3)|].
  repeat split; congruence.
Qed.

Lemma round_doomed fuel payload key attempt w w1 pe :
  Push url_Parse (pApp payload) (pDeviceToken payload) (pEnvironment payload)
       (pData payload) w = Returned (Some (ErrPush pe)) w1 ->
  Permanent pe = true ->
  exists w',
    push_loop url_Parse (S fuel) payload key attempt w = Returned (Some tt) w' /\
    evolves w1 w' [Delete key] /\
    store w' = deleted_store w1 key /\
    store_calls w' = S (store_calls w1) /\
    timestamp w' = timestamp w1.
Proof.
  intros HP Hperm. cbn [push_loop]. erewrite bind_Returned by exact HP.
  cbn [as_PushError]. rewrite Hperm. cbn [andb].
  set (w1' := record (EvLog (LogPermanentFailure (pAccountID payload) pe)) w1).
  destruct (store_Delete_spec key w1') as (de & w2 & HD & E2 & Hst2 & Hsc2 & Hts2 & _).
  destruct (when_err_evolves de (LogFailedToDelete (pAccountID payload)) w2)
    as (w3 & HW & E3 & Hst3 & Hsc3 & Hts3).
  exists (record (EvLog (LogPayload (pAccountID payload) (pData payload))) w3).
  split.
  - unfold log_Printf, emit, modify. unfold mbind at 1 2 3. unfold M_bind at 1 2 3.
    cbn beta iota. unfold mbind at 1, M_bind at 1. fold w1'. rewrite HD.
    rewrite HW. reflexivity.
  - split.
    + exact (evolves_trans _ _ _ _ _ (evolves_log _ w1)
              (evolves_trans _ _ _ _ _ E2
                (evolves_trans _ _ _ _ _ E3 (evolves_log _ w3)))).
    + cbn [store store_calls timestamp record]. rewrite Hst3, Hst2, Hsc3, Hsc2, Hts3, Hts2.
      auto.
Qed.

Lemma round_failed fuel payload key attempt w w1 e :
  Push url_Parse (pApp payload) (pDeviceToken payload) (pEnvironment payload)
       (pData payload) w = Returned (Some e) w1 ->
  not_permanent e ->
  exists w2,
    evolves w1 w2 [Update key false] /\
    store w2 = updated_store w1 key false /\
    store_calls w2 = S (store_calls w1) /\
    timestamp w2 = timestamp w1 /\
    push_loop url_Parse (S fuel) payload key attempt w =
      (if attempt >=? MaxRetries then
         log_Printf (LogExceededMaxRetries (pAccountID payload));;
         log_Printf (LogPayload (pAccountID payload) (pData payload));;
         mret (Some tt)
       else
         time_Sleep (wrap (Exp2 (attempt - 1) * Second));;
         push_loop url_Parse fuel payload key (wrap (attempt + 1))) w2.
Proof.
  intros HP Hnp. cbn [push_loop]. erewrite bind_Returned by exact HP.
  pose proof (as_PushError_not_permanent e Hnp) as Hguard.
  destruct (as_PushError (Some e)) as [pe ok]. rewrite Hguard.
  change (bool_decide (Some e = None)) with false.
  destruct (updateDeviceStats_spec key false w1) as (ue & w2 & HU & E2 & Hst2 & Hsc2 & Hts2 & _).
  erewrite bind_Returned by exact HU.
  destruct (when_err_evolves ue (LogFailedToUpdate (pAccountID payload)) w2)
    as (w3 & HW & E3 & Hst3 & Hsc3 & Hts3).
  erewrite bind_Returned by exact HW.
  exists (record (EvLog (LogFailedToPush (pAccountID payload) attempt MaxRetries e)) w3).
  split; [exact (evolves_trans _ _ _ _ _ E2 (evolves_trans _ _ _ _ _ E3 (evolves_log _ w3)))|].
  cbn [store store_calls timestamp record].
  repeat split; congruence.
Qed.

Lemma round_failed_last fuel payload key attempt w w1 e :
  Push url_Parse (pApp payload) (pDeviceToken payload) (pEnvironment payload)
       (pData payload) w = Returned (Some e) w1 ->
  not_permanent e ->
  MaxRetries <= attempt ->
  exists w',
    push_loop url_Parse (S fuel) payload key attempt w = Returned (Some tt) w' /\
    evolves w1 w' [Update key false] /\
    store w' = updated_store w1 key false /\
    store_calls w' = S (store_calls w1) /\
    timestamp w' = timestamp w1.
Proof.
  intros HP Hnp Hlast.
  destruct (round_failed fuel payload key attempt w w1 e HP Hnp)
    as (w2 & E2 & Hst & Hsc & Hts & ->).
  rewrite (proj2 (Z.geb_le _ _) Hlast). run.
  eexists. split; [reflexivity|]. split.
  - exact (evolves_trans _ _ _ _ _ E2
            (evolves_trans _ _ _ _ _ (evolves_log _ w2) (evolves_log _ _))).
  - cbn. auto.
Qed.

Lemma round_failed_again fuel payload key attempt w w1 e :
  Push url_Parse (pApp payload) (pDeviceToken payload) (pEnvironment payload)
       (pData payload) w = Returned (Some e) w1 ->
  not_permanent e ->
  attempt < MaxRetries ->
  exists w2,
    push_loop url_Parse (S fuel) payload key attempt w
      = push_loop url_Parse fuel payload key (wrap (attempt + 1)) w2 /\
    evolves w1 w2 [Update key false; Sleep (wrap (Exp2 (attempt - 1) * Second))] /\
    store w2 = updated_store w1 key false /\
    store_calls w2 = S (store_calls w1) /\
    timestamp w2 = timestamp w1.
Proof.
  intros HP Hnp Hmore.
  destruct (round_failed fuel payload key attempt w w1 e HP Hnp)
    as (w2 & E2 & Hst & Hsc & Hts & ->).
  assert ((attempt >=? MaxRetries) = false) as ->
    by (rewrite Z.geb_leb; apply Z.leb_gt; lia).
  destruct (time_Sleep_evolves (wrap (Exp2 (attempt - 1) * Second)) w2)
    as (w3 & HS & E3 & Hst3 & Hsc3 & Hts3).
  erewrite bind_Returned by exact HS.
  exists w3. split; [reflexivity|].
  split; [exact (evolves_trans _ _ _ _ _ E2 E3)|].
  repeat split; congruence.
Qed.

(** A round of the loop against its worldless view. *)
Lemma push_loop_view fuel payload key attempt w :
  exists w2,
    evolves w w2
      (round_view payload key attempt (clients w !! pApp payload)
         (url_Parse (endpoint (pEnvironment payload) (pDeviceToken payload)))
         (gateway w (sent w))).1 /\
    push_loop url_Parse (S fuel) payload key attempt w =
      if (round_view payload key attempt (clients w !! pApp payload)
            (url_Parse (endpoint (pEnvironment payload) (pDeviceToken payload)))
            (gateway w (sent w))).2
      then push_loop url_Parse fuel payload key (wrap (attempt + 1)) w2
      else Returned (Some tt) w2.
Proof.
  destruct (Push_view url_Parse (pApp payload) (pDeviceToken payload)
              (pEnvironment payload) (pData payload) w) as (w1 & HP & E1 & _).
  unfold round_view.
  destruct (attempt_view _ _ _ _ _ _) as [err acts]. cbn [fst snd] in HP, E1.
  destruct err as [e|].
  - assert (Hcases : (exists pe, e = ErrPush pe /\ Permanent pe = true) \/ not_permanent e).
    { destruct e as [pe| | | |]; cbn; auto.
      destruct (Permanent pe) eqn:Hp; eauto. }
    destruct Hcases as [(pe & -> & Hp)|Hnp].
    + cbn [as_PushError]. rewrite Hp. cbn [andb fst snd].
      destruct (round_doomed fuel payload key attempt w w1 pe HP Hp) as (w' & Hrun & E2 & _).
      exists w'. split; [exact (evolves_trans _ _ _ _ _ E1 E2)|exact Hrun].
    + pose proof (as_PushError_not_permanent e Hnp) as Hguard.
      destruct (as_PushError (Some e)) as [pe ok]. rewrite Hguard.
      destruct (Z.lt_ge_cases attempt MaxRetries) as [Hmore|Hlast].
      * assert ((attempt >=? MaxRetries) = false) as ->
          by (rewrite Z.geb_leb; apply Z.leb_gt; lia).
        cbn [fst snd].
        destruct (round_failed_again fuel payload key attempt w w1 e HP Hnp Hmore)
          as (w2 & Hrun & E2 & _).
        exists w2. split; [exact (evolves_trans _ _ _ _ _ E1 E2)|exact Hrun].
      * rewrite (proj2 (Z.geb_le _ _) Hlast). cbn [fst snd].
        destruct (round_failed_last fuel payload key attempt w w1 e HP Hnp Hlast)
          as (w' & Hrun & E2 & _).
        exists w'. split; [exact (evolves_trans _ _ _ _ _ E1 E2)|exact Hrun].
  - cbn [as_PushError andb fst snd].
    destruct (round_delivered fuel payload key attempt w w1 HP) as (w' & Hrun & E2 & _).
    exists w'. split; [exact (evolves_trans _ _ _ _ _ E1 E2)|exact Hrun].
Qed.

(** The loop against its schedule, whatever the fuel. *)
Lemma push_loop_schedule fuel : forall payload key attempt w,
  exists res w',
    push_loop url_Parse fuel payload key attempt w = Returned res w' /\
    evolves w w'
      (schedule fuel payload key attempt (clients w !! pApp payload)
         (url_Parse (endpoint (pEnvironment payload) (pDeviceToken payload)))
         (gateway w) (sent w)).
Proof.
  induction fuel as [|fuel IH]; intros payload key attempt w.
  - exists None, w. split; [reflexivity|apply evolves_refl].
  - destruct (push_loop_view fuel payload key attempt w) as (w2 & E2 & Hrun).
    cbn [schedule].
    destruct (round_view _ _ _ _ _ _) as [acts more]. cbn [fst snd] in E2, Hrun.
    destruct more.
    + destruct (IH payload key (wrap (attempt + 1)) w2) as (res & w' & Hrest & E3).
      exists res, w'. split; [congruence|].
      rewrite (ev_clients _ _ _ E2), (ev_gateway _ _ _ E2), (ev_sent _ _ _ E2) in E3.
      exact (evolves_trans _ _ _ _ _ E2 E3).
    + exists (Some tt), w2. auto.
Qed.

(** [push] against its plan. *)
Lemma push_plan payload w :
  exists w',
    push url_Parse payload w = Returned (Some tt) w' /\
    evolves w w'
      (plan payload (clients w !! pApp payload)
         (url_Parse (endpoint (pEnvironment payload) (pDeviceToken payload)))
         (gateway w) (sent w)).
Proof.
  destruct (push_returns url_Parse payload w) as (w' & Hret).
  exists w'. split; [exact Hret|].
  unfold push, plan in *. destruct (String.eqb (pApp payload) "").
  - revert Hret. run. intros [= <-]. apply evolves_log.
  - destruct (push_loop_schedule (Z.to_nat MaxRetries) payload
                (pAccountID payload, pDeviceToken payload) 1 w) as (res & w'' & Hrun & E).
    rewrite Hrun in Hret. injection Hret as _ <-. exact E.
Qed.

End RoundFacts.

(** ** What the plan of [push] can be *)

Lemma round_view_bounds payload key attempt c parses r :
  let acts := (round_view payload key attempt c parses r).1 in
  let more := (round_view payload key attempt c parses r).2 in
  tally is_lookup acts = 1%nat /\
  (tally is_send acts <= 1)%nat /\
  (tally is_update acts + tally is_delete acts = 1)%nat /\
  pause_total acts = (if more then wrap (Exp2 (attempt - 1) * Second) else 0) /\
  (more = true -> attempt < MaxRetries /\ tally is_delete acts = 0%nat).
Proof.
  unfold round_view, attempt_view.
  assert (Hlt : (attempt >=? MaxRetries) = false -> attempt < MaxRetries)
    by (rewrite Z.geb_leb; intros H; apply Z.leb_gt in H; exact H).
  destruct c as [c|]; [destruct parses; [destruct r as [detail|resp]|]|]; cbn.
  2: destruct (outcome resp) as [[pe| | | |]|]; cbn; [destruct (Permanent pe); cbn|..].
  all: try (destruct (attempt >=? MaxRetries) eqn:Hge; cbn).
  all: repeat split; auto; try lia; try discriminate.
Qed.

Lemma plan_bounds payload c parses g n :
  let acts := plan payload c parses g n in
  (tally is_lookup acts <= 3)%nat /\
  (tally is_send acts <= 3)%nat /\
  (tally is_update acts <= 3)%nat /\
  (tally is_delete acts <= 1)%nat /\
  (pause_total acts = 0 \/ pause_total acts = 1 * Second \/ pause_total acts = 3 * Second).
Proof.
  unfold plan. destruct (String.eqb (pApp payload) "").
  { cbn. repeat split; auto; lia. }
  change (Z.to_nat MaxRetries) with 3%nat. cbn [schedule].
  set (key := (pAccountID payload, pDeviceToken payload)).
  pose proof (round_view_bounds payload key 1 c parses (g n)) as B1.
  destruct (round_view payload key 1 c parses (g n)) as [a1 m1].
  cbn [fst snd] in B1. destruct B1 as (L1 & S1 & U1 & P1 & M1).
  destruct m1; [|cbn; rewrite P1; repeat split; auto; lia].
  change (wrap (1 + 1)) with 2.
  change (wrap (Exp2 (1 - 1) * Second)) with (1 * Second) in P1.
  pose proof (round_view_bounds payload key 2 c parses (g (n + tally is_send a1)%nat)) as B2.
  destruct (round_view payload key 2 c parses (g (n + tally is_send a1)%nat)) as [a2 m2].
  cbn [fst snd] in B2. destruct B2 as (L2 & S2 & U2 & P2 & M2).
  destruct (M1 eq_refl) as (_ & D1).
  destruct m2.
  2:{ rewrite !tally_app, pause_total_app, P1, P2. repeat split; auto; lia. }
  change (wrap (2 + 1)) with 3.
  change (wrap (Exp2 (2 - 1) * Second)) with (2 * Second) in P2.
  pose proof (round_view_bounds payload key 3 c parses
                (g (n + tally is_send a1 + tally is_send a2)%nat)) as B3.
  destruct (round_view payload key 3 c parses
              (g (n + tally is_send a1 + tally is_send a2)%nat)) as [a3 m3].
  cbn [fst snd] in B3. destruct B3 as (L3 & S3 & U3 & P3 & M3).
  destruct (M2 eq_refl) as (_ & D2).
  destruct m3; [destruct (M3 eq_refl) as (Hlt & _); unfold MaxRetries in Hlt; lia|].
  rewrite !tally_app, !pause_total_app, P1, P2, P3. repeat split; auto; lia.
Qed.

(** X5: the budget of the dispatcher.  On every payload and in every
    world [push] returns (the loop never runs out of rounds, never panics,
    never exits) after at most three registry lookups, three requests,
    three bookkeeping calls and one delete, having slept 0, 1 or 3 seconds
    in all; the clock has moved by exactly that, one answer of the gateway
    was used per request, and the registry and the credentials are as they
    were. *)
Theorem push_budget
    (url_Parse : string -> bool) (payload : Payload) (w : World) :
  exists w' acts,
    push url_Parse payload w = Returned (Some tt) w' /\
    actions (trace w') = actions (trace w) ++ acts /\
    (tally is_lookup acts <= 3)%nat /\
    (tally is_send acts <= 3)%nat /\
    (tally is_update acts <= 3)%nat /\
    (tally is_delete acts <= 1)%nat /\
    (pause_total acts = 0 \/ pause_total acts = 1 * Second \/
     pause_total acts = 3 * Second) /\
    clock w' = clock w + pause_total acts /\
    sent w' = (sent w + tally is_send acts)%nat /\
    clients w' = clients w /\ credentials w' = credentials w.
Proof.
  destruct (push_plan url_Parse payload w) as (w' & Hrun & [Ht Hc Hk Hg Hf Hs Hn]).
  destruct (plan_bounds payload (clients w !! pApp payload)
              (url_Parse (endpoint (pEnvironment payload) (pDeviceToken payload)))
              (gateway w) (sent w)) as (B1 & B2 & B3 & B4 & B5).
  do 2 eexists. split; [exact Hrun|]. split; [exact Ht|].
  repeat split; assumption.
Qed.

(** X6: device bookkeeping never steers the dispatcher.  Two worlds with
    the same registry entry for the application, the same gateway and the
    same count of requests sent lead [push] through the same actions,
    whatever their device stores hold, whichever datastore calls fail, and
    whatever their clocks and timestamps show. *)
Theorem push_ignores_the_store
    (url_Parse : string -> bool) (payload : Payload) (w v : World)
    (Hclients : clients w !! pApp payload = clients v !! pApp payload)
    (Hgateway : gateway w = gateway v)
    (Hsent : sent w = sent v) :
  exists acts w' v',
    push url_Parse payload w = Returned (Some tt) w' /\
    push url_Parse payload v = Returned (Some tt) v' /\
    actions (trace w') = actions (trace w) ++ acts /\
    actions (trace v') = actions (trace v) ++ acts.
Proof.
  destruct (push_plan url_Parse payload w) as (w' & Hw & Ew).
  destruct (push_plan url_Parse payload v) as (v' & Hv & Ev).
  rewrite <- Hclients, <- Hgateway, <- Hsent in Ev.
  do 3 eexists. split; [exact Hw|]. split; [exact Hv|].
  split; [exact (ev_actions _ _ _ Ew)|exact (ev_actions _ _ _ Ev)].
Qed.

Lemma push_ignores_the_store_witness :
  let w := sample_world (fun _ => answer 503 []) in
  let v := mkWorld (clients w) ∅ 77 2000 ∅ (gateway w) 0 (fun _ => Some "unavailable") 9 [] in
  exists acts w' v',
    push any_url (sample_payload ReactionCam) w = Returned (Some tt) w' /\
    push any_url (sample_payload ReactionCam) v = Returned (Some tt) v' /\
    actions (trace w') = actions (trace w) ++ acts /\
    actions (trace v') = actions (trace v) ++ acts.
Proof.
  intros w v.
  apply (push_ignores_the_store any_url (sample_payload ReactionCam) w v); reflexivity.
Defined.

(** ** Rounds that fail softly, and the store along the way *)

Lemma updated_store_ext w v key success :
  store v = store w -> store_calls v = store_calls w ->
  store_fault v = store_fault w -> clock v = clock w ->
  updated_store v key success = updated_store w key success.
Proof. unfold updated_store. intros -> -> -> ->. reflexivity. Qed.

Lemma deleted_store_ext w v key :
  store v = store w -> store_calls v = store_calls w ->
  store_fault v = store_fault w ->
  deleted_store v key = deleted_store w key.
Proof. unfold deleted_store. intros -> -> ->. reflexivity. Qed.

Lemma updated_store_hit w key success d :
  store_fault w (store_calls w) = None -> store w !! key = Some d ->
  updated_store w key success = <[key := bump (clock w) success d]> (store w).
Proof. unfold updated_store. intros -> ->. reflexivity. Qed.

Lemma updated_store_dom w key success :
  dom (updated_store w key success) = dom (store w).
Proof.
  unfold updated_store. destruct (store_fault w (store_calls w)); [reflexivity|].
  destruct (store w !! key) eqn:Hd; [|reflexivity].
  apply dom_insert_lookup_L. eauto.
Qed.

Lemma updated_store_other w key success k :
  k <> key -> updated_store w key success !! k = store w !! k.
Proof.
  intros Hne. unfold updated_store.
  destruct (store_fault w (store_calls w)); [reflexivity|].
  destruct (store w !! key); [|reflexivity].
  apply lookup_insert_ne. congruence.
Qed.

Lemma outcome_soft resp :
  soft (Responded resp) -> exists e, outcome resp = Some e /\ not_permanent e.
Proof.
  cbn. intros (H200 & Hbody). unfold outcome.
  assert ((RespStatus resp =? StatusOK) = false) as ->
    by (apply Z.eqb_neq; exact H200).
  destruct (RespBody resp) as [body|detail] eqn:Hb;
    eexists; (split; [reflexivity|]); cbn; [|exact I].
  apply not_true_is_false. rewrite Permanent_iff. cbn.
  intros H. destruct (Hbody H) as (detail & Hd). discriminate Hd.
Qed.

Lemma transient_soft r : transient r -> soft r.
Proof.
  destruct r as [detail|resp]; cbn; [auto|]. intros H. split; [lia|]. intros H'. lia.
Qed.

Section SoftRounds.

Variable url_Parse : string -> bool.

Lemma attempt_soft payload w c :
  clients w !! pApp payload = Some c ->
  url_Parse (endpoint (pEnvironment payload) (pDeviceToken payload)) = true ->
  soft (gateway w (sent w)) ->
  exists e w1,
    Push url_Parse (pApp payload) (pDeviceToken payload) (pEnvironment payload)
         (pData payload) w = Returned (Some e) w1 /\
    not_permanent e /\
    evolves w w1 [Lookup (pApp payload); Send] /\
    store w1 = store w /\ store_calls w1 = store_calls w.
Proof.
  intros Hc Hu Hs.
  destruct (Push_view url_Parse (pApp payload) (pDeviceToken payload)
              (pEnvironment payload) (pData payload) w) as (w1 & HP & E1 & Hst & Hsc & _).
  rewrite Hc, Hu in HP, E1. cbn [attempt_view fst snd] in HP, E1.
  destruct (gateway w (sent w)) as [detail|resp].
  - exists (ErrTransport detail), w1. cbn. auto.
  - destruct (outcome_soft resp Hs) as (e & He & Hnp). rewrite He in HP.
    exists e, w1. auto.
Qed.

Lemma attempt_ok payload w c resp :
  clients w !! pApp payload = Some c ->
  url_Parse (endpoint (pEnvironment payload) (pDeviceToken payload)) = true ->
  gateway w (sent w) = Responded resp ->
  exists w1,
    Push url_Parse (pApp payload) (pDeviceToken payload) (pEnvironment payload)
         (pData payload) w = Returned (outcome resp) w1 /\
    evolves w w1 [Lookup (pApp payload); Send] /\
    store w1 = store w /\ store_calls w1 = store_calls w /\
    timestamp w1 = clock w.
Proof.
  intros Hc Hu Hg.
  destruct (Push_view url_Parse (pApp payload) (pDeviceToken payload)
              (pEnvironment payload) (pData payload) w) as (w1 & HP & E1 & Hst & Hsc & Hts).
  rewrite Hc, Hu, Hg in HP, E1, Hts. cbn [attempt_view fst snd] in HP, E1.
  exists w1. auto.
Qed.

Lemma round_soft fuel payload key attempt w c :
  clients w !! pApp payload = Some c ->
  url_Parse (endpoint (pEnvironment payload) (pDeviceToken payload)) = true ->
  soft (gateway w (sent w)) ->
  attempt < MaxRetries ->
  exists w2,
    push_loop url_Parse (S fuel) payload key attempt w
      = push_loop url_Parse fuel payload key (wrap (attempt + 1)) w2 /\
    evolves w w2 [Lookup (pApp payload); Send; Update key false;
                  Sleep (wrap (Exp2 (attempt - 1) * Second))] /\
    store w2 = updated_store w key false /\
    store_calls w2 = S (store_calls w).
Proof.
  intros Hc Hu Hs Hmore.
  destruct (attempt_soft payload w c Hc Hu Hs) as (e & w1 & HP & Hnp & E1 & Hst1 & Hsc1).
  destruct (round_failed_again url_Parse fuel payload key attempt w w1 e HP Hnp Hmore)
    as (w2 & Hrun & E2 & Hst2 & Hsc2 & _).
  exists w2. split; [exact Hrun|]. split; [exact (evolves_trans _ _ _ _ _ E1 E2)|].
  rewrite Hst2, Hsc2, Hsc1. split; [|reflexivity].
  apply updated_store_ext; auto.
  - exact (ev_faults _ _ _ E1).
  - rewrite (ev_clock _ _ _ E1). cbn. lia.
Qed.

Lemma round_soft_last fuel payload key attempt w c :
  clients w !! pApp payload = Some c ->
  url_Parse (endpoint (pEnvironment payload) (pDeviceToken payload)) = true ->
  soft (gateway w (sent w)) ->
  MaxRetries <= attempt ->
  exists w',
    push_loop url_Parse (S fuel) payload key attempt w = Returned (Some tt) w' /\
    evolves w w' [Lookup (pApp payload); Send; Update key false] /\
    store w' = updated_store w key false /\
    store_calls w' = S (store_calls w).
Proof.
  intros Hc Hu Hs Hlast.
  destruct (attempt_soft payload w c Hc Hu Hs) as (e & w1 & HP & Hnp & E1 & Hst1 & Hsc1).
  destruct (round_failed_last url_Parse fuel payload key attempt w w1 e HP Hnp Hlast)
    as (w2 & Hrun & E2 & Hst2 & Hsc2 & _).
  exists w2. split; [exact Hrun|]. split; [exact (evolves_trans _ _ _ _ _ E1 E2)|].
  rewrite Hst2, Hsc2, Hsc1. split; [|reflexivity].
  apply updated_store_ext; auto.
  - exact (ev_faults _ _ _ E1).
  - rewrite (ev_clock _ _ _ E1). cbn. lia.
Qed.


Lemma round_dead fuel payload key attempt w c resp body :
  clients w !! pApp payload = Some c ->
  url_Parse (endpoint (pEnvironment payload) (pDeviceToken payload)) = true ->
  gateway w (sent w) = Responded resp ->
  RespBody resp = inl body ->
  RespStatus resp = 400 \/ RespStatus resp = 410 ->
  exists w',
    push_loop url_Parse (S fuel) payload key attempt w = Returned (Some tt) w' /\
    evolves w w' [Lookup (pApp payload); Send; Delete key] /\
    store w' = deleted_store w key /\
    store_calls w' = S (store_calls w) /\
    timestamp w' = clock w.
Proof.
  intros Hc Hu Hg Hbody Hstatus.
  destruct (attempt_ok payload w c resp Hc Hu Hg) as (w1 & HP & E1 & Hst1 & Hsc1 & Hts1).
  assert (Hperm : Permanent {| Body := body; StatusCode := RespStatus resp |} = true)
    by (apply Permanent_iff; exact Hstatus).
  assert (outcome resp = Some (ErrPush {| Body := body; StatusCode := RespStatus resp |}))
    as Hout.
  { unfold outcome. rewrite Hbody.
    assert ((RespStatus resp =? StatusOK) = false) as ->
      by (apply Z.eqb_neq; unfold StatusOK; lia).
    reflexivity. }
  rewrite Hout in HP.
  destruct (round_doomed url_Parse fuel payload key attempt w w1 _ HP Hperm)
    as (w' & Hrun & E2 & Hst2 & Hsc2 & Hts2).
  exists w'. split; [exact Hrun|]. split; [exact (evolves_trans _ _ _ _ _ E1 E2)|].
  rewrite Hst2, Hsc2, Hsc1, Hts2, Hts1. repeat split.
  apply deleted_store_ext; auto. exact (ev_faults _ _ _ E1).
Qed.

End SoftRounds.

(** ** The dispatcher from end to end *)

(** X7: every failure short of a permanent verdict is retried.  When the
    application is registered, its address parses and three answers in a
    row are soft (no answer, a status other than 200, 400 and 410, or a
    400 or 410 whose body cannot be read), [push] makes three attempts with
    a failure update after each and pauses of 1s and 2s between them, and
    returns; it deletes nothing, and the device store holds records under
    the same keys as before. *)
Theorem push_retries_soft_failures
    (url_Parse : string -> bool)
    (payload : Payload) (w : World) (c : Client)
    (Happ : pApp payload <> "")
    (Hc : clients w !! pApp payload = Some c)
    (Hu : url_Parse (endpoint (pEnvironment payload) (pDeviceToken payload)) = true)
    (H1 : soft (gateway w (sent w)))
    (H2 : soft (gateway w (S (sent w))))
    (H3 : soft (gateway w (S (S (sent w))))) :
  exists w',
    push url_Parse payload w = Returned (Some tt) w' /\
    (let app := pApp payload in
     let key := (pAccountID payload, pDeviceToken payload) in
     actions (trace w') =
       actions (trace w) ++
       [Lookup app; Send; Update key false; Sleep (1 * Second);
        Lookup app; Send; Update key false; Sleep (2 * Second);
        Lookup app; Send; Update key false]) /\
    dom (store w') = dom (store w).
Proof.
  unfold push. apply String.eqb_neq in Happ. rewrite Happ.
  change (Z.to_nat MaxRetries) with 3%nat.
  set (key := (pAccountID payload, pDeviceToken payload)).
  destruct (round_soft url_Parse 2 payload key 1 w c Hc Hu H1 eq_refl)
    as (w1 & -> & E1 & Hst1 & _).
  pose proof (ev_clients _ _ _ E1) as Hc1. pose proof (ev_gateway _ _ _ E1) as Hg1.
  pose proof (ev_sent _ _ _ E1) as Hs1. cbn in Hs1. rewrite Nat.add_1_r in Hs1.
  rewrite <- Hc1 in Hc. rewrite <- Hg1, <- Hs1 in H2, H3.
  change (wrap (1 + 1)) with 2.
  destruct (round_soft url_Parse 1 payload key 2 w1 c Hc Hu H2 eq_refl)
    as (w2 & -> & E2 & Hst2 & _).
  pose proof (ev_clients _ _ _ E2) as Hc2. pose proof (ev_gateway _ _ _ E2) as Hg2.
  pose proof (ev_sent _ _ _ E2) as Hs2. cbn in Hs2. rewrite Nat.add_1_r in Hs2.
  rewrite <- Hc2 in Hc. rewrite <- Hg2, <- Hs2 in H3.
  change (wrap (2 + 1)) with 3.
  destruct (round_soft_last url_Parse 0 payload key 3 w2 c Hc Hu H3)
    as (w3 & -> & E3 & Hst3 & _); [unfold MaxRetries; lia|].
  exists w3. split; [reflexivity|]. split.
  - exact (ev_actions _ _ _ (evolves_trans _ _ _ _ _ E1 (evolves_trans _ _ _ _ _ E2 E3))).
  - rewrite Hst3, updated_store_dom, Hst2, updated_store_dom, Hst1, updated_store_dom.
    reflexivity.
Qed.

Lemma push_retries_soft_failures_witness :
  let w := sample_world (fun n => match n with
                                  | 0%nat => answer 404 []
                                  | 1%nat => Responded {| RespStatus := 410; RespBody := inr "reset" |}
                                  | _ => NoResponse "timeout"
                                  end) in
  exists w',
    push any_url (sample_payload ReactionCam) w = Returned (Some tt) w' /\
    actions (trace w') =
      [Lookup ReactionCam; Send; Update (7, "token") false; Sleep (1 * Second);
       Lookup ReactionCam; Send; Update (7, "token") false; Sleep (2 * Second);
       Lookup ReactionCam; Send; Update (7, "token") false] /\
    dom (store w') = dom (store w).
Proof.
  intros w.
  apply (push_retries_soft_failures any_url (sample_payload ReactionCam) w sample_client);
    try reflexivity; cbn.
  - discriminate.
  - split; [discriminate|]. intros [H|H]; discriminate H.
  - split; [discriminate|]. intros _. eauto.
Defined.



(** X9: a permanent verdict removes the device record and nothing else.
    In any round of the loop, on a 400 or 410 whose body can be read,
    [push] returns; when the datastore accepts the delete the record is
    gone, whether or not it was there; when the datastore refuses it the
    store is as it was and [push] returns all the same; the records under
    other keys are never touched. *)
Theorem push_permanent_removes_record
    (url_Parse : string -> bool)
    (fuel : nat) (payload : Payload) (key : Key) (attempt : Z)
    (w : World) (c : Client) (resp : Response) (body : Bytes)
    (Hc : clients w !! pApp payload = Some c)
    (Hu : url_Parse (endpoint (pEnvironment payload) (pDeviceToken payload)) = true)
    (Hg : gateway w (sent w) = Responded resp)
    (Hbody : RespBody resp = inl body)
    (Hstatus : RespStatus resp = 400 \/ RespStatus resp = 410) :
  exists w',
    push_loop url_Parse (S fuel) payload key attempt w = Returned (Some tt) w' /\
    (store_fault w (store_calls w) = None -> store w' !! key = None) /\
    (store_fault w (store_calls w) <> None -> store w' = store w) /\
    (forall k, k <> key -> store w' !! k = store w !! k).
Proof.
  destruct (round_dead url_Parse fuel payload key attempt w c resp body Hc Hu Hg Hbody Hstatus)
    as (w' & Hrun & _ & Hst & _).
  exists w'. split; [exact Hrun|]. rewrite Hst. unfold deleted_store.
  destruct (store_fault w (store_calls w)) as [detail|].
  - repeat split; auto. discriminate.
  - repeat split.
    + intros _. apply lookup_delete_eq.
    + intros H. contradiction.
    + intros k Hk. apply lookup_delete_ne. congruence.
Qed.

Lemma push_permanent_removes_record_witness :
  let w := sample_world (fun _ => answer 410 []) in
  exists w',
    push any_url (sample_payload ReactionCam) w = Returned (Some tt) w' /\
    (store_fault w (store_calls w) = None -> store w' !! (7, "token") = None) /\
    (store_fault w (store_calls w) <> None -> store w' = store w) /\
    (forall k, k <> (7, "token") -> store w' !! k = store w !! k).
Proof.
  intros w.
  apply (push_permanent_removes_record any_url 2 (sample_payload ReactionCam) (7, "token") 1
           w sample_client {| RespStatus := 410; RespBody := inl [] |} []);
    try reflexivity.
  right. reflexivity.
Defined.

(** ** Device bookkeeping, further *)

(** X10: a bookkeeping call that fails changes nothing.
    [updateDeviceStats] always returns; it returns nil exactly when the
    datastore call goes through and a record is stored under the key; with
    no record under the key it returns the no-such-entity error; and
    whenever it returns an error the device store is exactly as before. *)
Theorem updateDeviceStats_failure_changes_nothing
    (key : Key) (success : bool) (w : World) :
  exists e w',
    updateDeviceStats key success w = Returned e w' /\
    (e = None <-> store_fault w (store_calls w) = None /\ is_Some (store w !! key)) /\
    (store_fault w (store_calls w) = None -> store w !! key = None ->
     e = Some ErrNoSuchEntity) /\
    (e <> None -> store w' = store w).
Proof.
  unfold updateDeviceStats. run.
  destruct (store_fault w (store_calls w)) as [detail|]; cbn;
    [|destruct (store w !! key) as [d|]; cbn];
    do 2 eexists; (split; [reflexivity|]); cbn.
  - repeat split; auto; try discriminate. intros [H _]. discriminate H.
  - repeat split; auto; try discriminate. intros H. contradiction.
  - repeat split; auto; try discriminate. intros [_ [? H]]. discriminate H.
Qed.

(** X11: what a bookkeeping call leaves alone.  [updateDeviceStats] never
    creates and never removes a record, never touches the record of
    another key, and on the record of its key it keeps the identity of the
    device (application, token, platform, environment, device id and info,
    protocol version, creation time); a failure keeps the last-success time
    and the lifetime successes, a success keeps the lifetime failures. *)
Theorem updateDeviceStats_frame
    (key : Key) (success : bool) (w : World) :
  exists e w',
    updateDeviceStats key success w = Returned e w' /\
    dom (store w') = dom (store w) /\
    (forall k, k <> key -> store w' !! k = store w !! k) /\
    (forall d, store w !! key = Some d ->
       exists d',
         store w' !! key = Some d' /\
         App d' = App d /\ Token d' = Token d /\ Platform d' = Platform d /\
         Environment d' = Environment d /\ DeviceId d' = DeviceId d /\
         DeviceInfo d' = DeviceInfo d /\ ApiVersion d' = ApiVersion d /\
         Created d' = Created d /\
         (success = false ->
          LastSuccess d' = LastSuccess d /\ TotalSuccesses d' = TotalSuccesses d) /\
         (success = true -> TotalFailures d' = TotalFailures d)) /\
    clients w' = clients w /\ timestamp w' = timestamp w /\ clock w' = clock w.
Proof.
  destruct (updateDeviceStats_spec key success w)
    as (e & w' & Hrun & E & Hst & _ & Hts & _).
  exists e, w'. split; [exact Hrun|]. rewrite Hst.
  split; [apply updated_store_dom|].
  split; [intros k Hk; apply updated_store_other; exact Hk|].
  split.
  - intros d Hd. unfold updated_store. rewrite Hd.
    destruct (store_fault w (store_calls w)).
    + exists d. rewrite Hd. repeat split; auto.
    + exists (bump (clock w) success d). rewrite lookup_insert_eq.
      destruct success; cbn; repeat split; auto; discriminate.
  - split; [exact (ev_clients _ _ _ E)|]. split; [exact Hts|].
    rewrite (ev_clock _ _ _ E). cbn. lia.
Qed.

(** X12: the consecutive failures never exceed the lifetime failures.  On
    a record with 0 <= Failures <= TotalFailures < MaxInt, a bookkeeping
    call of either kind, accepted by the datastore or not, leaves a record
    with 0 <= Failures <= TotalFailures. *)
Theorem updateDeviceStats_keeps_streak_below_total
    (key : Key) (success : bool) (w : World) (d : Device)
    (Hd : store w !! key = Some d)
    (Hinv : 0 <= Failures d <= TotalFailures d)
    (Hroom : TotalFailures d < MaxInt) :
  exists e w' d',
    updateDeviceStats key success w = Returned e w' /\
    store w' !! key = Some d' /\
    0 <= Failures d' <= TotalFailures d'.
Proof.
  destruct (updateDeviceStats_spec key success w)
    as (e & w' & Hrun & _ & Hst & _).
  unfold updated_store in Hst. rewrite Hd in Hst.
  destruct (store_fault w (store_calls w)).
  - exists e, w', d. rewrite Hst. auto.
  - exists e, w', (bump (clock w) success d). split; [exact Hrun|].
    split; [rewrite Hst; apply lookup_insert_eq|].
    assert (Hmin : MinInt <= 0) by (destruct int_bounds as (-> & _); lia).
    destruct success; cbn; rewrite ?wrap_succ by lia; lia.
Qed.

Lemma updateDeviceStats_keeps_streak_below_total_witness :
  let d := mkDevice 1 ReactionCam 0 "id" "" "production" 2 0 "ios" "token" 5 9 0 in
  let w := with_store (<[(7, "token") := d]>) (sample_world (fun _ => answer 200 [])) in
  exists e w' d',
    updateDeviceStats (7, "token") false w = Returned e w' /\
    store w' !! (7, "token") = Some d' /\
    0 <= Failures d' <= TotalFailures d'.
Proof.
  intros d w.
  apply (updateDeviceStats_keeps_streak_below_total (7, "token") false w d);
    try reflexivity; vm_compute; try split; try reflexivity; intros H; discriminate H.
Defined.

Lemma forallb_rev {A} (f : A -> bool) l : forallb f (rev l) = forallb f l.
Proof.
  induction l as [|a l IH]; [reflexivity|]. cbn [rev forallb].
  rewrite forallb_app, IH. cbn. rewrite andb_true_r. apply andb_comm.
Qed.

Lemma leading_failures_snoc l s :
  leading_failures (l ++ [s]) =
  if forallb negb l then (length l + (if s then 0 else 1))%nat
  else leading_failures l.
Proof.
  induction l as [|b l IH]; cbn.
  - destruct s; reflexivity.
  - destruct b; cbn; [reflexivity|]. rewrite IH.
    destruct (forallb negb l); reflexivity.
Qed.

Lemma streak_cons s history :
  streak (s :: history) =
  if forallb negb history then (length history + (if s then 0 else 1))%nat
  else streak history.
Proof.
  unfold streak. cbn [rev]. rewrite leading_failures_snoc, forallb_rev, length_rev.
  reflexivity.
Qed.

Lemma update_all_counts key flags : forall w d,
  store w !! key = Some d ->
  (forall i, (i < length flags)%nat -> store_fault w (store_calls w + i) = None) ->
  0 <= Failures d -> 0 <= TotalFailures d -> 0 <= TotalSuccesses d ->
  Failures d + Z.of_nat (length flags) <= MaxInt ->
  TotalFailures d + Z.of_nat (length (List.filter negb flags)) <= MaxInt ->
  TotalSuccesses d + Z.of_nat (length (List.filter (fun s => s) flags)) <= MaxInt ->
  exists w' d',
    update_all key flags w = Returned tt w' /\
    store w' !! key = Some d' /\
    TotalFailures d' = TotalFailures d + Z.of_nat (length (List.filter negb flags)) /\
    TotalSuccesses d' = TotalSuccesses d + Z.of_nat (length (List.filter (fun s => s) flags)) /\
    Failures d' = (if forallb negb flags
                   then Failures d + Z.of_nat (length flags)
                   else Z.of_nat (streak flags)) /\
    (forall k, k <> key -> store w' !! k = store w !! k).
Proof.
  assert (Hmin : MinInt <= 0) by (destruct int_bounds as (-> & _); lia).
  induction flags as [|s flags IH]; intros w d Hd Hfault HF HTF HTS HFr HTFr HTSr.
  - exists w, d. cbn. repeat split; auto; lia.
  - cbn [update_all].
    destruct (updateDeviceStats_spec key s w) as (e & w1 & Hrun & E & Hst & Hsc & _).
    erewrite bind_Returned by exact Hrun.
    assert (Hf0 : store_fault w (store_calls w) = None).
    { rewrite <- (Nat.add_0_r (store_calls w)). apply Hfault. cbn. lia. }
    rewrite (updated_store_hit w key s d Hf0 Hd) in Hst.
    set (d1 := bump (clock w) s d) in *.
    assert (Hd1 : store w1 !! key = Some d1) by (rewrite Hst; apply lookup_insert_eq).
    assert (Hfault1 : forall i, (i < length flags)%nat ->
                                store_fault w1 (store_calls w1 + i) = None).
    { intros i Hi. rewrite (ev_faults _ _ _ E), Hsc.
      replace (S (store_calls w) + i)%nat with (store_calls w + S i)%nat by lia.
      apply Hfault. cbn. lia. }
    cbn [length List.filter] in HFr, HTFr, HTSr.
    destruct s; cbn [negb length] in HFr, HTFr, HTSr.
    + assert (F1 : Failures d1 = 0) by reflexivity.
      assert (TF1 : TotalFailures d1 = TotalFailures d) by reflexivity.
      assert (TS1 : TotalSuccesses d1 = TotalSuccesses d + 1)
        by (subst d1; cbn; apply wrap_succ; lia).
      destruct (IH w1 d1 Hd1 Hfault1) as (w' & d' & Hrest & Hd' & HTF' & HTS' & HF' & Hk);
        try lia.
      exists w', d'. split; [exact Hrest|]. split; [exact Hd'|].
      cbn [List.filter negb forallb length andb].
      rewrite streak_cons. rewrite HTF', HTS', HF', F1, TF1, TS1.
      repeat split; try lia.
      * destruct (forallb negb flags); lia.
      * intros k Hne. rewrite (Hk k Hne), Hst. apply lookup_insert_ne. congruence.
    + assert (F1 : Failures d1 = Failures d + 1)
        by (subst d1; cbn; apply wrap_succ; lia).
      assert (TF1 : TotalFailures d1 = TotalFailures d + 1)
        by (subst d1; cbn; apply wrap_succ; lia).
      assert (TS1 : TotalSuccesses d1 = TotalSuccesses d) by reflexivity.
      destruct (IH w1 d1 Hd1 Hfault1) as (w' & d' & Hrest & Hd' & HTF' & HTS' & HF' & Hk);
        try lia.
      exists w', d'. split; [exact Hrest|]. split; [exact Hd'|].
      cbn [List.filter negb forallb length andb].
      rewrite streak_cons. rewrite HTF', HTS', HF', F1, TF1, TS1.
      repeat split; try lia.
      * destruct (forallb negb flags); lia.
      * intros k Hne. rewrite (Hk k Hne), Hst. apply lookup_insert_ne. congruence.
Qed.

(** X13: bookkeeping calls in a row add up.  After any history of
    successes and failures recorded on one device record (the datastore
    accepting each call, the counters non-negative and with room below the
    largest [int]), the lifetime failures have grown by the number of
    failures, the lifetime successes by the number of successes, and the
    consecutive-failure counter holds the number of failures since the last
    success, or its old value plus the length of the history when the
    history has no success; no other record has changed. *)
Theorem updateDeviceStats_history
    (key : Key) (flags : list bool) (w : World) (d : Device)
    (Hd : store w !! key = Some d)
    (Hfault : forall i, (i < length flags)%nat ->
                        store_fault w (store_calls w + i) = None)
    (HF : 0 <= Failures d) (HTF : 0 <= TotalFailures d) (HTS : 0 <= TotalSuccesses d)
    (HFr : Failures d + Z.of_nat (length flags) <= MaxInt)
    (HTFr : TotalFailures d + Z.of_nat (length (List.filter negb flags)) <= MaxInt)
    (HTSr : TotalSuccesses d + Z.of_nat (length (List.filter (fun s => s) flags)) <= MaxInt) :
  exists w' d',
    update_all key flags w = Returned tt w' /\
    store w' !! key = Some d' /\
    TotalFailures d' = TotalFailures d + Z.of_nat (length (List.filter negb flags)) /\
    TotalSuccesses d' = TotalSuccesses d + Z.of_nat (length (List.filter (fun s => s) flags)) /\
    Failures d' = (if forallb negb flags
                   then Failures d + Z.of_nat (length flags)
                   else Z.of_nat (streak flags)) /\
    (forall k, k <> key -> store w' !! k = store w !! k).
Proof. exact (update_all_counts key flags w d Hd Hfault HF HTF HTS HFr HTFr HTSr). Qed.

Lemma updateDeviceStats_history_witness :
  let w := sample_world (fun _ => answer 200 []) in
  let flags := [false; true; false; false] in
  exists w' d',
    update_all (7, "token") flags w = Returned tt w' /\
    store w' !! (7, "token") = Some d' /\
    TotalFailures d' = 0 + 3 /\
    TotalSuccesses d' = 0 + 1 /\
    Failures d' = 2 /\
    (forall k, k <> (7, "token") -> store w' !! k = store w !! k).
Proof.
  intros w flags.
  apply (updateDeviceStats_history (7, "token") flags w sample_device);
    try reflexivity; vm_compute; intros H; discriminate H.
Defined.

(** ** The transport registry, further *)

Lemma Create_cases (app : string) (w : World) :
  match Create app w with
  | Returned client w' =>
      clients w !! app = None /\
      credentials w !! app = Some (Certificate client) /\
      Timeout client = 3 * Second /\
      clients w' = <[app := client]> (clients w) /\
      store w' = store w
  | Panicked msg w' =>
      is_Some (clients w !! app) /\ msg = overwrite_msg /\ clients w' = clients w
  | Exited w' =>
      clients w !! app = None /\ credentials w !! app = None /\
      clients w' = clients w
  end.
Proof.
  unfold Create, NewClient. run.
  destruct (clients w !! app) as [c|] eqn:Hc; cbn.
  - eauto.
  - destruct (credentials w !! app) as [cert|] eqn:Hk; cbn; auto.
Qed.

(** X14: the three ways [Create] ends.  It returns only for an application
    that was absent and has a key pair, and then the registry holds, under
    that application and only there, a new transport with a 3s timeout and
    that key pair; it panics only for an application that was present; it
    exits only for an absent application without a key pair; and whenever
    it does not return, the registry is as it was. *)
Theorem Create_outcomes (app : string) (w : World) :
  match Create app w with
  | Returned client w' =>
      clients w !! app = None /\
      credentials w !! app = Some (Certificate client) /\
      Timeout client = 3 * Second /\
      clients w' = <[app := client]> (clients w) /\
      store w' = store w
  | Panicked msg w' =>
      is_Some (clients w !! app) /\ msg = overwrite_msg /\ clients w' = clients w
  | Exited w' =>
      clients w !! app = None /\ credentials w !! app = None /\
      clients w' = clients w
  end.
Proof. exact (Create_cases app w). Qed.

(** X15: registering once is enough, and only once.  After [Create] has
    returned for an application, a second [Create] for it panics and leaves
    the new entry in place, the entries of the other applications are the
    ones from before, and a delivery attempt for the application whose
    address parses goes out through the transport that [Create]
    returned. *)
Theorem Create_then_use
    (url_Parse : string -> bool)
    (app token env : string) (data : Bytes) (w w1 : World) (client : Client)
    (Hcreate : Create app w = Returned client w1)
    (Hu : url_Parse (endpoint env token) = true) :
  (exists w2, Create app w1 = Panicked overwrite_msg w2 /\
              clients w2 !! app = Some client) /\
  (forall other, other <> app -> clients w1 !! other = clients w !! other) /\
  (exists e w2 req rest,
     Push url_Parse app token env data w1 = Returned e w2 /\
     trace w2 = trace w1 ++ [EvLookup app; EvDo client req] ++ rest).
Proof.
  pose proof (Create_cases app w) as H. rewrite Hcreate in H.
  destruct H as (Habs & Hcert & Hto & Hreg & _).
  assert (Hc1 : clients w1 !! app = Some client)
    by (rewrite Hreg; apply lookup_insert_eq).
  split; [|split].
  - exists (record (EvLookup app) w1). unfold Create. run. rewrite Hc1. auto.
  - intros other Hne. rewrite Hreg. apply lookup_insert_ne. congruence.
  - destruct (gateway w1 (sent w1)) as [detail|resp] eqn:Hg.
    + destruct (Push_unanswered url_Parse app token env data w1 client detail Hc1 Hu Hg)
        as (req & w2 & HP & Ht & _).
      exists (Some (ErrTransport detail)), w2, req, []. auto.
    + destruct (Push_answered url_Parse app token env data w1 client resp Hc1 Hu Hg)
        as (req & w2 & HP & Ht & _).
      exists (outcome resp), w2, req, (closing resp). auto.
Qed.

Lemma Create_then_use_witness :
  let w1 := final (Create ReactionCam bare_world) in
  (exists w2, Create ReactionCam w1 = Panicked overwrite_msg w2 /\
              clients w2 !! ReactionCam = Some sample_client) /\
  (forall other, other <> ReactionCam ->
                 clients w1 !! other = clients bare_world !! other) /\
  (exists e w2 req rest,
     Push any_url ReactionCam "token" "production" [] w1 = Returned e w2 /\
     trace w2 = trace w1 ++ [EvLookup ReactionCam; EvDo sample_client req] ++ rest).
Proof.
  intros w1.
  apply (Create_then_use any_url ReactionCam "token" "production" [] bare_world w1
           sample_client); reflexivity.
Defined.

(** ** The connection health monitor *)

Lemma saturate_above z : (saturate z >? PingThreshold) = (z >? PingThreshold).
Proof.
  unfold saturate. destruct int_bounds as (-> & -> & _).
  change PingThreshold with 60000000000.
  rewrite !Z.gtb_ltb.
  destruct (Z.ltb_spec 60000000000 z), (Z.ltb_spec 60000000000
    (Z.max (-9223372036854775808) (Z.min 9223372036854775807 z))); auto; lia.
Qed.

Lemma refresh_all_present apps : forall w,
  (forall app, app ∈ apps -> is_Some (credentials w !! app)) ->
  exists w',
    refresh apps w = Returned tt w' /\
    (forall app, clients w' !! app =
                 if decide (app ∈ apps) then fresh_client <$> credentials w !! app
                 else clients w !! app) /\
    credentials w' = credentials w /\ trace w' = trace w /\
    timestamp w' = timestamp w /\ clock w' = clock w /\ store w' = store w.
Proof.
  induction apps as [|a apps IH]; intros w Hcreds.
  - exists w. split; [reflexivity|]. repeat split; auto.
  - cbn [refresh]. unfold NewClient. run.
    destruct (Hcreds a) as [cert Hcert]; [left|]. rewrite Hcert. cbn.
    set (w1 := with_clients (<[a := fresh_client cert]>) w).
    destruct (IH w1) as (w' & Hrun & Hcl & Hk & Ht & Hts & Hck & Hst).
    { intros app Happ. cbn. apply Hcreds. right. exact Happ. }
    exists w'. split; [exact Hrun|]. split; [|cbn in *; auto].
    intros app. rewrite Hcl. cbn [clients credentials w1 with_clients].
    destruct (decide (app ∈ apps)) as [Hin|Hnin].
    + rewrite decide_True by (right; exact Hin). reflexivity.
    + destruct (decide (app = a)) as [->|Hne].
      * rewrite decide_True by left. rewrite lookup_insert_eq, Hcert. reflexivity.
      * rewrite decide_False by (intros H; apply elem_of_cons in H; tauto).
        apply lookup_insert_ne. congruence.
Qed.

Lemma refresh_missing apps : forall w,
  (exists app, app ∈ apps /\ credentials w !! app = None) ->
  exists w', refresh apps w = Exited w' /\ store w' = store w.
Proof.
  induction apps as [|a apps IH]; intros w (app & Hin & Hnone).
  - apply elem_of_nil in Hin. contradiction.
  - cbn [refresh]. unfold NewClient. run.
    destruct (credentials w !! a) as [cert|] eqn:Hcert; cbn.
    + apply (IH (with_clients (<[a := fresh_client cert]>) w)).
      exists app. split; [|exact Hnone].
      apply elem_of_cons in Hin. destruct Hin as [->|Hin]; [congruence|exact Hin].
    + eexists. split; [reflexivity|]. reflexivity.
Qed.

Section MonitorFacts.

Variable range_order : gmap string Client -> list string.



End MonitorFacts.



(** X17: a stale timestamp makes the monitor rebuild every transport.
    When more than the threshold has passed since the timestamp, the order
    of the range covers exactly the registered applications and each of
    them has a key pair, one turn of [pinger] returns with the timestamp
    at the current instant, the same applications registered, and each of
    them bound to a new transport with a 3s timeout and the key pair now on
    disk; then it has slept one ping period.  The device store is not
    touched. *)
Theorem pinger_round_refreshes
    (range_order : gmap string Client -> list string) (w : World)
    (Hstale : clock w - timestamp w > PingThreshold)
    (Horder : forall app, app ∈ range_order (clients w) <-> is_Some (clients w !! app))
    (Hcreds : forall app, is_Some (clients w !! app) -> is_Some (credentials w !! app)) :
  exists w',
    pinger_round range_order w = Returned tt w' /\
    timestamp w' = clock w /\
    clock w' = clock w + PingFrequency /\
    dom (clients w') = dom (clients w) /\
    (forall app, is_Some (clients w !! app) ->
       exists cert, credentials w !! app = Some cert /\
                    clients w' !! app
                    = Some {| Timeout := 3 * Second; Certificate := cert |}) /\
    store w' = store w /\
    trace w' = trace w ++ [EvSleep PingFrequency].
Proof.
  unfold pinger_round, time_Since. run. rewrite saturate_above.
  assert ((clock w - timestamp w >? PingThreshold) = true) as ->
    by (rewrite Z.gtb_ltb; apply Z.ltb_lt; lia).
  cbn.
  destruct (refresh_all_present (range_order (clients w)) (with_timestamp (clock w) w))
    as (w1 & Hrun & Hcl & Hk & Ht & Hts & Hck & Hst).
  { intros app Hin. cbn. apply Hcreds, Horder, Hin. }
  rewrite Hrun. cbn in *.
  eexists. split; [reflexivity|]. cbn. rewrite Hts, Hck, Hst, Ht.
  assert (Hpoint : forall app, clients w1 !! app =
                     if decide (is_Some (clients w !! app))
                     then fresh_client <$> credentials w !! app else None).
  { intros app. rewrite Hcl.
    destruct (decide (app ∈ range_order (clients w))) as [Hin|Hnin].
    - rewrite decide_True by (apply Horder; exact Hin). reflexivity.
    - assert (Hno : ~ is_Some (clients w !! app)) by (intros H; apply Hnin, Horder, H).
      rewrite decide_False by exact Hno.
      destruct (clients w !! app) eqn:E; [exfalso; apply Hno; eauto|reflexivity]. }
  repeat split; auto.
  - apply set_eq. intros app. rewrite !elem_of_dom, Hpoint.
    destruct (decide (is_Some (clients w !! app))) as [Hreg|Hno].
    + destruct (Hcreds app Hreg) as [cert ->]. cbn. split; eauto.
    + split; [intros [? H]; discriminate H|intros H; contradiction].
  - intros app Hreg. rewrite Hpoint, decide_True by exact Hreg.
    destruct (Hcreds app Hreg) as [cert Hcert]. rewrite Hcert. eauto.
Qed.

Lemma pinger_round_refreshes_witness :
  let w := mkWorld {[ ReactionCam := {| Timeout := 3 * Second; Certificate := "old" |} ]}
                   ∅ 0 (61 * Second) {[ ReactionCam := "pem" ]}
                   (fun _ => answer 200 []) 0 (fun _ => None) 0 [] in
  exists w',
    pinger_round listed_order w = Returned tt w' /\
    timestamp w' = clock w /\
    clock w' = clock w + PingFrequency /\
    dom (clients w') = dom (clients w) /\
    (forall app, is_Some (clients w !! app) ->
       exists cert, credentials w !! app = Some cert /\
                    clients w' !! app
                    = Some {| Timeout := 3 * Second; Certificate := cert |}) /\
    store w' = store w /\
    trace w' = trace w ++ [EvSleep PingFrequency].
Proof.
  intros w.
  apply (pinger_round_refreshes listed_order w).
  - reflexivity.
  - intros app. unfold listed_order. rewrite list_elem_of_fmap. split.
    + intros ([k c] & -> & Hin). apply elem_of_map_to_list in Hin. cbn. eauto.
    + intros [c Hc]. exists (app, c). split; [reflexivity|].
      apply elem_of_map_to_list. exact Hc.
  - intros app [c Hc]. cbn in Hc. apply lookup_singleton_Some in Hc.
    destruct Hc as [<- _]. exists "pem". reflexivity.
Defined.

(** X18: a stale timestamp and a lost key pair stop the process.  When
    more than the threshold has passed since the timestamp and some
    application in the range has no key pair any more, one turn of [pinger]
    ends in [log.Fatalf], in whatever order the applications are visited;
    the device store is not touched. *)
Theorem pinger_round_exits_without_credentials
    (range_order : gmap string Client -> list string) (w : World) (app : string)
    (Hstale : clock w - timestamp w > PingThreshold)
    (Hin : app ∈ range_order (clients w))
    (Hlost : credentials w !! app = None) :
  exists w', pinger_round range_order w = Exited w' /\ store w' = store w.
Proof.
  unfold pinger_round, time_Since. run. rewrite saturate_above.
  assert ((clock w - timestamp w >? PingThreshold) = true) as ->
    by (rewrite Z.gtb_ltb; apply Z.ltb_lt; lia).
  cbn.
  destruct (refresh_missing (range_order (clients w)) (with_timestamp (clock w) w))
    as (w1 & Hrun & Hst).
  { exists app. split; [exact Hin|exact Hlost]. }
  rewrite Hrun. exists w1. split; [reflexivity|exact Hst].
Qed.

Lemma pinger_round_exits_without_credentials_witness :
  let w := with_clock (5 + 61 * Second) (sample_world (fun _ => answer 200 [])) in
  exists w', pinger_round (fun _ => [ReactionCam]) w = Exited w' /\ store w' = store w.
Proof.
  intros w.
  apply (pinger_round_exits_without_credentials (fun _ => [ReactionCam]) w ReactionCam).
  - reflexivity.
  - left.
  - reflexivity.
Defined.



(** ** The dispatcher, further *)

(** X20: a notification that cannot be sent is still retried.  For a
    non-empty application identifier that is not registered, or a device
    token whose address does not parse, [push] goes three times round its
    loop, with a registry lookup and a failure update each time and pauses
    of 1s and 2s, and no request ever goes to the gateway. *)
Theorem push_never_reaches_gateway
    (url_Parse : string -> bool) (payload : Payload) (w : World)
    (Happ : pApp payload <> "")
    (Hno : clients w !! pApp payload = None \/
           url_Parse (endpoint (pEnvironment payload) (pDeviceToken payload)) = false) :
  exists w',
    push url_Parse payload w = Returned (Some tt) w' /\
    (let app := pApp payload in
     let key := (pAccountID payload, pDeviceToken payload) in
     actions (trace w') =
       actions (trace w) ++
       [Lookup app; Update key false; Sleep (1 * Second);
        Lookup app; Update key false; Sleep (2 * Second);
        Lookup app; Update key false]) /\
    sent w' = sent w /\
    clock w' = clock w + 3 * Second.
Proof.
  destruct (push_plan url_Parse payload w) as (w' & Hrun & E).
  apply String.eqb_neq in Happ.
  assert (Hplan :
    plan payload (clients w !! pApp payload)
      (url_Parse (endpoint (pEnvironment payload) (pDeviceToken payload)))
      (gateway w) (sent w)
    = [Lookup (pApp payload);
       Update (pAccountID payload, pDeviceToken payload) false; Sleep (1 * Second);
       Lookup (pApp payload);
       Update (pAccountID payload, pDeviceToken payload) false; Sleep (2 * Second);
       Lookup (pApp payload);
       Update (pAccountID payload, pDeviceToken payload) false]).
  { unfold plan. rewrite Happ. change (Z.to_nat MaxRetries) with 3%nat.
    destruct (clients w !! pApp payload) as [c|].
    - destruct Hno as [Hno|Hno]; [discriminate Hno|]. rewrite Hno. reflexivity.
    - reflexivity. }
  rewrite Hplan in E. destruct E as [Ht _ _ _ _ Hs Hck].
  exists w'. split; [exact Hrun|]. split; [exact Ht|].
  split; [rewrite Hs; cbn; lia|rewrite Hck; reflexivity].
Qed.

Lemma push_never_reaches_gateway_witness :
  let w := sample_world (fun _ => answer 200 []) in
  exists w',
    push any_url (sample_payload "other.app") w = Returned (Some tt) w' /\
    actions (trace w') =
      [Lookup "other.app"; Update (7, "token") false; Sleep (1 * Second);
       Lookup "other.app"; Update (7, "token") false; Sleep (2 * Second);
       Lookup "other.app"; Update (7, "token") false] /\
    sent w' = 0%nat /\
    clock w' = 100 + 3 * Second.
Proof.
  intros w.
  apply (push_never_reaches_gateway any_url (sample_payload "other.app") w).
  - discriminate.
  - left. reflexivity.
Defined.

Lemma Push_trace url_Parse app token env data w :
  exists err w1 evs,
    Push url_Parse app token env data w = Returned err w1 /\
    trace w1 = trace w ++ evs.
Proof.
  unfold Push, http_NewRequest. run.
  destruct (clients w !! app) as [c|]; cbn;
    [destruct (url_Parse (endpoint env token)); cbn;
       [destruct (gateway w (sent w)) as [detail|resp]; cbn;
          [|destruct (RespStatus resp =? StatusOK); cbn;
              [|destruct (RespBody resp); cbn]]|]|];
    do 3 eexists; (split; [reflexivity|]); cbn; rewrite <- ?app_assoc; reflexivity.
Qed.

Lemma push_loop_trace url_Parse payload key fuel : forall attempt w,
  exists res w' evs,
    push_loop url_Parse fuel payload key attempt w = Returned res w' /\
    trace w' = trace w ++ evs /\
    (res = Some tt ->
     last evs = Some (EvLog (LogPayload (pAccountID payload) (pData payload))) \/
     EvUpdate key true ∈ evs).
Proof.
  induction fuel as [|fuel IH]; intros attempt w.
  - exists None, w, []. cbn. rewrite app_nil_r. repeat split; auto. discriminate.
  - cbn [push_loop].
    destruct (Push_trace url_Parse (pApp payload) (pDeviceToken payload)
                (pEnvironment payload) (pData payload) w) as (err & w1 & evs0 & HP & Ht0).
    erewrite bind_Returned by exact HP.
    assert (Hgo : forall w2 evs2,
              trace w2 = trace w ++ evs2 ->
              exists res w' evs,
                push_loop url_Parse fuel payload key (wrap (attempt + 1)) w2
                  = Returned res w' /\
                trace w' = trace w ++ evs /\
                (res = Some tt ->
                 last evs = Some (EvLog (LogPayload (pAccountID payload) (pData payload))) \/
                 EvUpdate key true ∈ evs)).
    { intros w2 evs2 Ht2.
      destruct (IH (wrap (attempt + 1)) w2) as (res & w' & evs & Hrun & Ht & Hlast).
      exists res, w', (evs2 ++ evs). split; [exact Hrun|].
      split; [rewrite Ht, Ht2, app_assoc; reflexivity|].
      intros Hres. destruct (Hlast Hres) as [Hl|Hin].
      - left. rewrite last_app, Hl. reflexivity.
      - right. apply elem_of_app. right. exact Hin. }
    destruct err as [[pe| | | |]|]; cbn [as_PushError andb];
      try destruct (Permanent pe); cbn [andb];
      try change (bool_decide (Some _ = None)) with false;
      try change (bool_decide (@None error = None)) with true;
      unfold updateDeviceStats; run;
      destruct (store_fault w1 (store_calls w1)); cbn;
      try (destruct (store w1 !! key); cbn);
      try (destruct (attempt >=? MaxRetries); cbn);
      try (eapply Hgo; cbn; rewrite Ht0, <- ?app_assoc; reflexivity);
      do 3 eexists; (split; [reflexivity|]); cbn; rewrite Ht0, <- ?app_assoc;
      (split; [reflexivity|]); intros _;
      first [ left; rewrite ?app_assoc; apply last_snoc
            | right; rewrite !elem_of_app, !elem_of_cons; tauto ].
Qed.

(** X21: no notification is dropped without a trace of its payload.  For a
    non-empty application identifier, the events that [push] adds to the
    trace either end with the log line that carries the account identifier
    and the raw payload, or contain a bookkeeping update with
    success = true.  (A payload with an empty application identifier is
    dropped with the unrecognized-app line alone.) *)
Theorem push_logs_what_it_drops
    (url_Parse : string -> bool) (payload : Payload) (w : World)
    (Happ : pApp payload <> "") :
  exists w' evs,
    push url_Parse payload w = Returned (Some tt) w' /\
    trace w' = trace w ++ evs /\
    (last evs = Some (EvLog (LogPayload (pAccountID payload) (pData payload))) \/
     EvUpdate (pAccountID payload, pDeviceToken payload) true ∈ evs).
Proof.
  destruct (push_returns url_Parse payload w) as (w' & Hret).
  unfold push in *. apply String.eqb_neq in Happ. rewrite Happ in *.
  destruct (push_loop_trace url_Parse payload (pAccountID payload, pDeviceToken payload)
              (Z.to_nat MaxRetries) 1 w) as (res & w'' & evs & Hrun & Ht & Hlast).
  rewrite Hrun in Hret. injection Hret as -> ->.
  exists w', evs. split; [exact Hrun|]. split; [exact Ht|]. apply Hlast. reflexivity.
Qed.

Lemma push_logs_what_it_drops_witness :
  let w := sample_world (fun _ => answer 410 []) in
  exists w' evs,
    push any_url (sample_payload ReactionCam) w = Returned (Some tt) w' /\
    trace w' = trace w ++ evs /\
    (last evs = Some (EvLog (LogPayload 7 ["{"%byte; "}"%byte])) \/
     EvUpdate (7, "token") true ∈ evs).
Proof.
  intros w.
  apply (push_logs_what_it_drops any_url (sample_payload ReactionCam) w).
  discriminate.
Defined.
